(** * Overnight backtesting: return calculator and chart renderer

    A shallow embedding of [backtesting-overnight.py]: the three return
    strategies of [calculate_returns], the figure built by
    [plot_investment_value] and the input handling of [main].

    Modelling choices, all local to this file:
    - a finite float is an exact rational ([Qc]); rounding, overflow and
      signed zeros are not modelled.  NaN and the two infinities are kept,
      because [dropna], [cumprod] and the numpy comparisons branch on them.
      Statements that give a computed value therefore name the operations
      in the order the code performs them ([1 + (c / o - 1)], products
      taken from the left) and use no identity of exact arithmetic that
      binary64 lacks; where the two arithmetics part, [Binary64] evaluates
      the same operations on the kernel's floats;
    - a pandas [Series] is a date-ordered list of (label, value) pairs, a
      [DataFrame] an index plus named columns of the index's length;
    - [st.error] and [st.plotly_chart] append to a list of UI events, and a
      Python exception is the [Raise] outcome of a computation;
    - [np.log10] is kept as an uninterpreted call on its argument. *)

From Stdlib Require Import List String Ascii Bool ZArith QArith Qcanon Lia.
From Stdlib Require PrimFloat.
Import ListNotations.

Open Scope string_scope.
Open Scope list_scope.

(** ** Floats *)

Module Float.

Inductive fl : Type :=
| Num (q : Qc)
| Inf (neg : bool)
| NaN.

Definition isnan (x : fl) : bool :=
  match x with NaN => true | _ => false end.

Definition Qc_eqb (a b : Qc) : bool := Qeq_bool a b.
Definition Qc_ltb (a b : Qc) : bool :=
  match (a ?= b)%Qc with Lt => true | _ => false end.

Definition zero : Qc := Q2Qc 0.
Definition one : Qc := Q2Qc 1.

Definition opp (x : fl) : fl :=
  match x with
  | Num q => Num (- q)%Qc
  | Inf s => Inf (negb s)
  | NaN => NaN
  end.

Definition add (x y : fl) : fl :=
  match x, y with
  | NaN, _ | _, NaN => NaN
  | Num a, Num b => Num (a + b)%Qc
  | Num _, Inf s | Inf s, Num _ => Inf s
  | Inf s, Inf s' => if Bool.eqb s s' then Inf s else NaN
  end.

Definition sub (x y : fl) : fl := add x (opp y).

Definition mul (x y : fl) : fl :=
  match x, y with
  | NaN, _ | _, NaN => NaN
  | Num a, Num b => Num (a * b)%Qc
  | Num a, Inf s | Inf s, Num a =>
      if Qc_eqb a zero then NaN else Inf (xorb s (Qc_ltb a zero))
  | Inf s, Inf s' => Inf (xorb s s')
  end.

Definition div (x y : fl) : fl :=
  match x, y with
  | NaN, _ | _, NaN => NaN
  | Num a, Num b =>
      if Qc_eqb b zero
      then (if Qc_eqb a zero then NaN else Inf (Qc_ltb a zero))
      else Num (a / b)%Qc
  | Num _, Inf _ => Num zero
  | Inf s, Num b => Inf (xorb s (Qc_ltb b zero))
  | Inf _, Inf _ => NaN
  end.

(** [x < y] as IEEE orders it: false as soon as a NaN is involved. *)
Definition ltb (x y : fl) : bool :=
  match x, y with
  | NaN, _ | _, NaN => false
  | Num a, Num b => Qc_ltb a b
  | Num _, Inf s => negb s
  | Inf s, Num _ => s
  | Inf s, Inf s' => s && negb s'
  end.

Definition gtb (x y : fl) : bool := ltb y x.

(** Decimal literals of the source. *)
Definition of_Z (z : Z) : fl := Num (Q2Qc (inject_Z z)).
Definition of_frac (n : Z) (d : positive) : fl := Num (Q2Qc (n # d)).

End Float.

Import Float.

Declare Scope fl_scope.
Delimit Scope fl_scope with fl.
Infix "+" := add : fl_scope.
Infix "-" := sub : fl_scope.
Infix "*" := mul : fl_scope.
Infix "/" := div : fl_scope.

(** ** Exceptions and the UI log *)

Definition ticker := string.
Definition field := string.
Definition date := Z.

Inductive exn : Type :=
| KeyError (key : list string)
| ValueError (msg : string)
| IndexError
| OtherError (msg : string).

Inductive result (A : Type) : Type :=
| Ok (a : A)
| Raise (e : exn).
Arguments Ok {A} a.
Arguments Raise {A} e.

Definition rbind {A B} (r : result A) (k : A -> result B) : result B :=
  match r with
  | Ok a => k a
  | Raise e => Raise e
  end.

Notation "x <- r ;; k" := (rbind r (fun x => k))
  (at level 61, r at next level, right associativity).

(** ** Series and frames *)

Definition Series := list (date * fl).

Definition s_index (s : Series) : list date := map fst s.
Definition s_values (s : Series) : list fl := map snd s.

Record PriceTable : Type := mkTable {
  index : list date;
  columns : list ((field * ticker) * list fl)
}.

Record DataFrame : Type := mkFrame {
  df_index : list date;
  df_columns : list (ticker * list fl)
}.

(** [pd.DataFrame()] *)
Definition empty_frame : DataFrame := mkFrame [] [].

Definition key_eqb (k k' : field * ticker) : bool :=
  (fst k =? fst k') && (snd k =? snd k').

Fixpoint lookup_column (k : field * ticker)
  (cols : list ((field * ticker) * list fl)) : option (list fl) :=
  match cols with
  | [] => None
  | (k', v) :: rest => if key_eqb k k' then Some v else lookup_column k rest
  end.

Definition column_of (data : PriceTable) (f : field) (t : ticker)
  : option (list fl) :=
  lookup_column (f, t) (columns data).

(** [data[f, t]] *)
Definition getitem (data : PriceTable) (f : field) (t : ticker) : result Series :=
  match column_of data f t with
  | Some v => Ok (combine (index data) v)
  | None => Raise (KeyError [f; t])
  end.

(** [Index.unique()]: first occurrences, in order. *)
Fixpoint unique (l : list string) : list string :=
  match l with
  | [] => []
  | x :: r => x :: filter (fun y => negb (y =? x)) (unique r)
  end.

(** [data.columns.get_level_values(1).unique()] *)
Definition tickers_of (data : PriceTable) : list ticker :=
  unique (map (fun c => snd (fst c)) (columns data)).

(** Binary operators on two series that carry the same index are positional. *)
Fixpoint zip_with (op : fl -> fl -> fl) (a b : Series) : Series :=
  match a, b with
  | (d, x) :: a', (_, y) :: b' => (d, op x y) :: zip_with op a' b'
  | _, _ => []
  end.

Definition smap (g : fl -> fl) (s : Series) : Series :=
  map (fun p => (fst p, g (snd p))) s.

(** [s.shift(-1)]: every value moves one label up, the last label gets NaN. *)
Definition shift_values_up (vs : list fl) : list fl :=
  match vs with
  | [] => []
  | _ :: r => r ++ [NaN]
  end.

Definition shift_up (s : Series) : Series :=
  combine (s_index s) (shift_values_up (s_values s)).

(** [s.shift(1)] *)
Definition shift_down (s : Series) : Series :=
  combine (s_index s) (NaN :: removelast (s_values s)).

Definition dropna (s : Series) : Series :=
  filter (fun p => negb (isnan (snd p))) s.

(** [s.ffill()], the padding [pct_change] applies first (its default
    [fill_method='pad']). *)
Fixpoint ffill_from (last : fl) (s : Series) : Series :=
  match s with
  | [] => []
  | (d, v) :: r =>
      let v' := if isnan v then last else v in
      (d, v') :: ffill_from v' r
  end.

Definition pct_change (s : Series) : Series :=
  let p := ffill_from NaN s in
  smap (fun v => v - of_Z 1)%fl (zip_with div p (shift_down p)).

(** [s.cumprod()]: NaN entries are skipped by the product and stay NaN. *)
Fixpoint cumprod_from (acc : fl) (s : Series) : Series :=
  match s with
  | [] => []
  | (d, v) :: r =>
      if isnan v then (d, NaN) :: cumprod_from acc r
      else (d, acc * v)%fl :: cumprod_from (acc * v)%fl r
  end.

Definition cumprod (s : Series) : Series := cumprod_from (of_Z 1) s.

(** ** Column assignment, [returns[ticker] = series] *)

Fixpoint index_eqb (a b : list date) : bool :=
  match a, b with
  | [], [] => true
  | x :: a', y :: b' => Z.eqb x y && index_eqb a' b'
  | _, _ => false
  end.

Definition value_at (s : Series) (d : date) : fl :=
  match find (fun p => Z.eqb (fst p) d) s with
  | Some p => snd p
  | None => NaN
  end.

(** [s.reindex(idx)]: labels of [idx] that [s] lacks get NaN. *)
Definition reindex (s : Series) (idx : list date) : list fl :=
  map (value_at s) idx.

(** A frame that has no row yet takes the index of the first non-empty
    series assigned to it; columns it already has are padded with NaN. *)
Definition ensure_valid_index (df : DataFrame) (s : Series) : DataFrame :=
  match df_index df, s with
  | [], _ :: _ =>
      mkFrame (s_index s)
              (map (fun c => (fst c, map (fun _ => NaN) (s_index s)))
                   (df_columns df))
  | _, _ => df
  end.

Definition reindex_for_setitem (s : Series) (df : DataFrame) : list fl :=
  if index_eqb (s_index s) (df_index df) then s_values s
  else match df_index df with
       | [] => s_values s
       | _ => reindex s (df_index df)
       end.

Fixpoint set_column (t : ticker) (v : list fl)
  (cols : list (ticker * list fl)) : list (ticker * list fl) :=
  match cols with
  | [] => [(t, v)]
  | (t', v') :: rest =>
      if t' =? t then (t', v) :: rest else (t', v') :: set_column t v rest
  end.

Definition setitem (df : DataFrame) (t : ticker) (s : Series) : DataFrame :=
  let df' := ensure_valid_index df s in
  mkFrame (df_index df')
          (set_column t (reindex_for_setitem s df') (df_columns df')).

Fixpoint get_column (t : ticker) (cols : list (ticker * list fl))
  : option (list fl) :=
  match cols with
  | [] => None
  | (t', v) :: rest => if t' =? t then Some v else get_column t rest
  end.

(** [df[t]] on a frame of returns. *)
Definition frame_getitem (df : DataFrame) (t : ticker) : result Series :=
  match get_column t (df_columns df) with
  | Some v => Ok (combine (df_index df) v)
  | None => Raise (KeyError [t])
  end.

(** [df.empty]: some axis has length zero. *)
Definition table_empty (data : PriceTable) : bool :=
  match index data, columns data with
  | _ :: _, _ :: _ => false
  | _, _ => true
  end.

Definition frame_empty (df : DataFrame) : bool :=
  match df_index df, df_columns df with
  | _ :: _, _ :: _ => false
  | _, _ => true
  end.

(** ** Figures and the UI log *)

Record Trace : Type := mkTrace {
  tr_x : list date;
  tr_y : list fl;
  tr_name : string;
  tr_dash : bool
}.

(** A call of [np.log10], kept symbolic.  Of the layout only the title's
    dates, the axis type and the axis range are recorded; the other labels
    are constants. *)
Inductive np_call : Type :=
| log10 (x : fl).

Record Figure : Type := mkFigure {
  traces : list Trace;
  title_dates : date * date;
  yaxis_type : option string;
  yaxis_range : option (np_call * np_call)
}.

Inductive message : Type :=
| MsgCalcError (t : ticker) (e : exn)
| MsgNoSymbols
| MsgNoData
| MsgUnexpected (e : exn).

Inductive ui_event : Type :=
| st_error (m : message)
| st_plotly_chart (fig : Figure).

(** A computation that writes to the page and may raise. *)
Definition ui (A : Type) : Type := (result A * list ui_event)%type.

Definition ui_ret {A} (a : A) : ui A := (Ok a, []).
Definition ui_raise {A} (e : exn) : ui A := (Raise e, []).
Definition ui_emit (ev : ui_event) : ui unit := (Ok tt, [ev]).
Definition ui_lift {A} (r : result A) : ui A := (r, []).

Definition ui_bind {A B} (m : ui A) (k : A -> ui B) : ui B :=
  match m with
  | (Ok a, log) => let (r, log') := k a in (r, log ++ log')
  | (Raise e, log) => (Raise e, log)
  end.

Notation "x <~ m ;; k" := (ui_bind m (fun x => k))
  (at level 61, m at next level, right associativity).

(** ** The return calculator *)

(** The body of the [try] up to the assignment. *)
Definition daily_returns (data : PriceTable) (strategy : string) (t : ticker)
  : result Series :=
  if strategy =? "open_to_close" then
    c <- getitem data "Close" t ;;
    o <- getitem data "Open" t ;;
    Ok (smap (fun v => v - of_Z 1)%fl (zip_with div c o))
  else if strategy =? "close_to_open" then
    o <- getitem data "Open" t ;;
    c <- getitem data "Close" t ;;
    Ok (dropna (smap (fun v => v - of_Z 1)%fl (zip_with div (shift_up o) c)))
  else if strategy =? "buy_and_hold" then
    a <- getitem data "Adj Close" t ;;
    Ok (dropna (pct_change a))
  else Raise (ValueError "Invalid strategy").

Definition cumulative_returns (data : PriceTable) (strategy : string)
  (t : ticker) : result Series :=
  d <- daily_returns data strategy t ;;
  Ok (cumprod (smap (fun v => of_Z 1 + v)%fl d)).

(** The [for] loop: a [KeyError] is reported and the ticker skipped, any
    other exception leaves the function. *)
Fixpoint calculate_returns_loop (data : PriceTable) (strategy : string)
  (ts : list ticker) (returns : DataFrame) : ui DataFrame :=
  match ts with
  | [] => ui_ret returns
  | t :: rest =>
      match cumulative_returns data strategy t with
      | Ok c => calculate_returns_loop data strategy rest (setitem returns t c)
      | Raise (KeyError k) =>
          _ <~ ui_emit (st_error (MsgCalcError t (KeyError k))) ;;
          calculate_returns_loop data strategy rest returns
      | Raise e => ui_raise e
      end
  end.

Definition calculate_returns (data : PriceTable) (strategy : string)
  : ui DataFrame :=
  calculate_returns_loop data strategy (tickers_of data) empty_frame.

(** ** The chart renderer *)

Definition frame_tickers (df : DataFrame) : list ticker :=
  map fst (df_columns df).

Definition scale (s : Series) (k : fl) : Series :=
  smap (fun v => v * k)%fl s.

Definition ticker_traces (o c b : DataFrame) (t : ticker)
  (vo vc vb : Series) : list Trace :=
  [ mkTrace (df_index o) (s_values vo) (t ++ " - Apertura a Cierre") false;
    mkTrace (df_index c) (s_values vc) (t ++ " - Cierre a Apertura") false;
    mkTrace (df_index b) (s_values vb) (t ++ " - Comprar y Mantener") false ].

(** The loop over [returns_open_to_close.columns]; it carries the traces
    added so far and [all_values]. *)
Fixpoint plot_loop (o c b : DataFrame) (initial_investment : fl)
  (ts : list ticker) (trs : list Trace) (all_values : list fl)
  : result (list Trace * list fl) :=
  match ts with
  | [] => Ok (trs, all_values)
  | t :: rest =>
      so <- frame_getitem o t ;;
      let vo := scale so initial_investment in
      sc <- frame_getitem c t ;;
      let vc := scale sc initial_investment in
      sb <- frame_getitem b t ;;
      let vb := scale sb initial_investment in
      plot_loop o c b initial_investment rest
        (trs ++ ticker_traces o c b t vo vc vb)
        (all_values ++ s_values vo ++ s_values vc ++ s_values vb)
  end.

(** [idx[0]] and [idx[-1]] *)
Definition index_first (idx : list date) : result date :=
  match idx with
  | [] => Raise IndexError
  | d :: _ => Ok d
  end.

Definition index_last (idx : list date) : result date :=
  match idx with
  | [] => Raise IndexError
  | d :: r => Ok (last r d)
  end.

(** [np.max]: a NaN anywhere makes the result NaN. *)
Definition fmax (a b : fl) : fl :=
  if isnan a || isnan b then NaN else if ltb a b then b else a.

Definition fmin (a b : fl) : fl :=
  if isnan a || isnan b then NaN else if ltb b a then b else a.

Definition np_max (l : list fl) : result fl :=
  match l with
  | [] => Raise (ValueError "zero-size array to reduction operation maximum")
  | x :: r => Ok (fold_left fmax r x)
  end.

Definition np_min (l : list fl) : result fl :=
  match l with
  | [] => Raise (ValueError "zero-size array to reduction operation minimum")
  | x :: r => Ok (fold_left fmin r x)
  end.

Definition positive_values (l : list fl) : list fl :=
  filter (fun v => gtb v (of_Z 0)) l.

(** The body of [if log_scale:], from the values collected by the loop. *)
Definition log_range (all_values : list fl) (initial_investment : fl)
  : result (np_call * np_call) :=
  let all_values := all_values ++ [initial_investment] in
  min_val <- (match positive_values all_values with
              | [] => Ok (of_frac 1 10)
              | pos => np_min pos
              end) ;;
  max_val <- np_max all_values ;;
  let range_padding := (of_frac 1 10 * (max_val - min_val))%fl in
  Ok (if gtb (min_val - range_padding)%fl (of_Z 0)
      then log10 (min_val - range_padding)%fl
      else log10 (of_frac 1 10),
      log10 (max_val + range_padding)%fl).

Definition build_figure (o c b : DataFrame) (start_date end_date : date)
  (initial_investment : fl) (log_scale : bool) : result Figure :=
  acc <- plot_loop o c b initial_investment (frame_tickers o) [] [] ;;
  x0 <- index_first (df_index o) ;;
  x1 <- index_last (df_index o) ;;
  let reference :=
    mkTrace [x0; x1] [initial_investment; initial_investment]
            "Inversión Inicial" true in
  let fig := mkFigure (fst acc ++ [reference]) (start_date, end_date)
                      (if log_scale then Some "log" else None) None in
  if log_scale then
    r <- log_range (snd acc) initial_investment ;;
    Ok (mkFigure (traces fig) (title_dates fig) (yaxis_type fig) (Some r))
  else Ok fig.

Definition plot_investment_value (o c b : DataFrame)
  (start_date end_date : date) (initial_investment : fl) (log_scale : bool)
  : ui unit :=
  fig <~ ui_lift (build_figure o c b start_date end_date
                               initial_investment log_scale) ;;
  ui_emit (st_plotly_chart fig).

(** ** Input handling and the top level *)

(** [str.upper()], ASCII letters. *)
Definition upper_ascii (c : ascii) : ascii :=
  let n := nat_of_ascii c in
  if (97 <=? n)%nat && (n <=? 122)%nat then ascii_of_nat (n - 32) else c.

Fixpoint upper (s : string) : string :=
  match s with
  | EmptyString => EmptyString
  | String c r => String (upper_ascii c) (upper r)
  end.

(** The characters [str.strip()] removes, ASCII part of [str.isspace]. *)
Definition is_space (c : ascii) : bool :=
  let n := nat_of_ascii c in
  ((9 <=? n)%nat && (n <=? 13)%nat) || ((28 <=? n)%nat && (n <=? 32)%nat).

Definition is_comma (c : ascii) : bool := Ascii.eqb c ","%char.

Fixpoint lstrip (s : string) : string :=
  match s with
  | EmptyString => EmptyString
  | String c r => if is_space c then lstrip r else s
  end.

Fixpoint rstrip (s : string) : string :=
  match s with
  | EmptyString => EmptyString
  | String c r =>
      match rstrip r with
      | EmptyString => if is_space c then EmptyString else String c EmptyString
      | r' => String c r'
      end
  end.

Definition strip (s : string) : string := rstrip (lstrip s).

(** [s.split(',')]: one more piece than there are commas. *)
Fixpoint split_comma (s : string) : list string :=
  match s with
  | EmptyString => [EmptyString]
  | String c r =>
      if is_comma c then EmptyString :: split_comma r
      else match split_comma r with
           | [] => [String c EmptyString]
           | w :: ws => String c w :: ws
           end
  end.

(** [[ticker.strip() for ticker in tickers.split(',')][:5]] after [.upper()] *)
Definition parse_tickers (text : string) : list ticker :=
  firstn 5 (map strip (split_comma (upper text))).

Section Main.

(** [yf.download], the fetch collaborator. *)
Variable yf_download : list ticker -> date -> date -> result PriceTable.

Definition fetch_data (tickers : list ticker) (start_date end_date : date)
  : result PriceTable :=
  yf_download tickers start_date end_date.

(** The body of the [try] in [main]; [Ok tt] also stands for the early
    [return] after the empty-data message. *)
Definition run_backtest (tickers : list ticker) (start_date end_date : date)
  (initial_investment : fl) (log_scale : bool) : ui unit :=
  data <~ ui_lift (fetch_data tickers start_date end_date) ;;
  if table_empty data then ui_emit (st_error MsgNoData)
  else
    returns_open_to_close <~ calculate_returns data "open_to_close" ;;
    returns_close_to_open <~ calculate_returns data "close_to_open" ;;
    returns_buy_and_hold <~ calculate_returns data "buy_and_hold" ;;
    plot_investment_value returns_open_to_close returns_close_to_open
      returns_buy_and_hold start_date end_date initial_investment log_scale.

(** [try: ... except Exception as e: st.error(...)] *)
Definition catch_all (m : ui unit) : list ui_event :=
  match m with
  | (Ok _, log) => log
  | (Raise e, log) => log ++ [st_error (MsgUnexpected e)]
  end.

Definition main (start_date end_date : date) (text : string)
  (initial_investment : fl) (log_scale button : bool) : list ui_event :=
  let tickers := parse_tickers text in
  if button then
    match tickers with
    | [] => [st_error MsgNoSymbols]
    | _ => catch_all (run_backtest tickers start_date end_date
                                   initial_investment log_scale)
    end
  else [].

End Main.

(** A frame as pandas keeps it: distinct labels, distinct column keys,
    every column as long as the index. *)
Fixpoint distinct_dates (l : list date) : bool :=
  match l with
  | [] => true
  | d :: r => negb (existsb (Z.eqb d) r) && distinct_dates r
  end.

Fixpoint distinct_keys (l : list (field * ticker)) : bool :=
  match l with
  | [] => true
  | k :: r => negb (existsb (key_eqb k) r) && distinct_keys r
  end.

Definition well_formed (data : PriceTable) : bool :=
  distinct_dates (index data)
  && distinct_keys (map fst (columns data))
  && forallb (fun c => Nat.eqb (List.length (snd c)) (List.length (index data)))
             (columns data).

(** ** Reference notions used in the statements *)

(** Close(d)/Open(d), date by date. *)
Fixpoint intraday_ratios (closes opens : list Qc) : list Qc :=
  match closes, opens with
  | c :: cs, o :: os => (c / o)%Qc :: intraday_ratios cs os
  | _, _ => []
  end.

(** Open(d+1)/Close(d), for every date that has a next one. *)
Definition overnight_ratios (opens closes : list Qc) : list Qc :=
  intraday_ratios (tl opens) closes.

(** Daily returns [num / den - 1], date by date, with the operations of
    the code. *)
Fixpoint daily_changes (nums dens : list fl) : list fl :=
  match nums, dens with
  | n :: ns, d :: ds => (n / d - of_Z 1)%fl :: daily_changes ns ds
  | _, _ => []
  end.

(** [1 + r] for every daily return: the factors that [cumprod] multiplies. *)
Definition growth_factors (rs : list fl) : list fl :=
  map (fun r => (of_Z 1 + r)%fl) rs.

(** The product taken from the left, starting at 1, as [cumprod]
    accumulates it. *)
Definition running (l : list fl) : fl := fold_left mul l (of_Z 1).

(** The prefix products [acc * x1], [(acc * x1) * x2], ... *)
Fixpoint prefix_products (acc : fl) (l : list fl) : list fl :=
  match l with
  | [] => []
  | x :: r => (acc * x)%fl :: prefix_products (acc * x)%fl r
  end.

Definition not_nan (v : fl) : bool := negb (isnan v).

Definition valid_strategy (strategy : string) : bool :=
  (strategy =? "open_to_close") || (strategy =? "close_to_open")
  || (strategy =? "buy_and_hold").

(** How one ticker can leave the loop body: [regular] when it is skipped
    or yields a series on exactly the labels [idx], [tame] when it is
    skipped or yields a series that is empty whenever [idx] is. *)
Definition regular (data : PriceTable) (strategy : string) (idx : list date)
  (t : ticker) : Prop :=
  match cumulative_returns data strategy t with
  | Ok s => s_index s = idx
  | Raise (KeyError _) => True
  | Raise _ => False
  end.

Definition tame (data : PriceTable) (strategy : string) (idx : list date)
  (t : ticker) : Prop :=
  match cumulative_returns data strategy t with
  | Ok s => idx = [] -> s = []
  | Raise (KeyError _) => True
  | Raise _ => False
  end.

(** The loop body ends normally or in the [KeyError] the handler absorbs. *)
Definition recoverable (data : PriceTable) (strategy : string) (t : ticker)
  : Prop :=
  match cumulative_returns data strategy t with
  | Ok _ => True
  | Raise (KeyError _) => True
  | Raise _ => False
  end.

(** The frame is still [pd.DataFrame()], or already carries [idx]. *)
Definition fresh_or_on (idx : list date) (fr : DataFrame) : Prop :=
  df_index fr = idx \/ (df_index fr = [] /\ df_columns fr = []).

(** A ticker whose Open and Close hold a number on every date, with no
    zero Close; and a ticker the close-to-open branch skips. *)
Definition gap_free (data : PriceTable) (t : ticker) : Prop :=
  exists opens closes : list Qc,
    column_of data "Open" t = Some (map Num opens)
    /\ column_of data "Close" t = Some (map Num closes)
    /\ Forall (fun c => c <> zero) closes.

Definition lacks_open_or_close (data : PriceTable) (t : ticker) : Prop :=
  column_of data "Open" t = None \/ column_of data "Close" t = None.

(** Dollar value of a ticker's series in a frame of returns: cumulative
    return times the initial investment, date by date. *)
Definition dollars (df : DataFrame) (t : ticker) (initial_investment : fl)
  : list fl :=
  match frame_getitem df t with
  | Ok s => map (fun v => v * initial_investment)%fl (s_values s)
  | Raise _ => []
  end.

(** The three lines the renderer draws for one ticker. *)
Definition dollar_traces (o c b : DataFrame) (initial_investment : fl)
  (t : ticker) : list Trace :=
  [ mkTrace (df_index o) (dollars o t initial_investment)
            (t ++ " - Apertura a Cierre") false;
    mkTrace (df_index c) (dollars c t initial_investment)
            (t ++ " - Cierre a Apertura") false;
    mkTrace (df_index b) (dollars b t initial_investment)
            (t ++ " - Comprar y Mantener") false ].

Definition reference_line (o : DataFrame) (initial_investment : fl) : Trace :=
  match df_index o with
  | [] => mkTrace [] [] "" true
  | d :: r =>
      mkTrace [d; last r d] [initial_investment; initial_investment]
              "Inversión Inicial" true
  end.

(** Texts made of whitespace and commas only, and of whitespace only. *)
Fixpoint blank (s : string) : bool :=
  match s with
  | EmptyString => true
  | String c r => (is_space c || is_comma c) && blank r
  end.

Fixpoint all_space (s : string) : bool :=
  match s with
  | EmptyString => true
  | String c r => is_space c && all_space r
  end.

(** ** Tables used as examples *)

(** Ticker X over two consecutive dates. *)
Definition two_days_X : PriceTable :=
  mkTable [1; 2]%Z
    [ (("Open", "X"), [of_Z 10; of_Z 11]);
      (("Close", "X"), [of_frac 105 10; of_frac 115 10]) ].

(** Ticker X with a single date. *)
Definition one_day_X : PriceTable :=
  mkTable [1]%Z
    [ (("Open", "X"), [of_Z 10]);
      (("Close", "X"), [of_frac 105 10]) ].

(** Ticker A is listed one day after the range starts, ticker B trades on
    all three dates. *)
Definition late_listing : PriceTable :=
  mkTable [1; 2; 3]%Z
    [ (("Open", "A"), [NaN; of_Z 10; of_Z 10]);
      (("Close", "A"), [NaN; of_Z 10; of_Z 10]);
      (("Open", "B"), [of_Z 10; of_Z 11; of_Z 12]);
      (("Close", "B"), [of_Z 10; of_Z 11; of_Z 12]) ].

(** A and B over two dates; B comes without an adjusted close. *)
Definition no_adj_close_B : PriceTable :=
  mkTable [1; 2]%Z
    [ (("Adj Close", "A"), [of_Z 10; of_Z 11]);
      (("Close", "A"), [of_Z 10; of_Z 11]);
      (("Close", "B"), [of_Z 20; of_Z 21]);
      (("Open", "A"), [of_Z 10; of_Z 10]);
      (("Open", "B"), [of_Z 20; of_Z 20]) ].

(** A and B over two dates; B comes without an open. *)
Definition no_open_B : PriceTable :=
  mkTable [1; 2]%Z
    [ (("Adj Close", "A"), [of_Z 10; of_Z 11]);
      (("Adj Close", "B"), [of_Z 20; of_Z 21]);
      (("Close", "A"), [of_Z 10; of_Z 11]);
      (("Close", "B"), [of_Z 20; of_Z 21]);
      (("Open", "A"), [of_Z 10; of_Z 10]) ].

(** Cumulative returns [1.0, 1.05] of ticker X. *)
Definition returns_X : DataFrame :=
  mkFrame [1; 2]%Z [("X", [of_Z 1; of_frac 105 100])].

(** ** Notions for the statements about the whole loop *)

(** The columns a strategy reads for a ticker, in the order the source
    evaluates them. *)
Definition required_fields (strategy : string) : list field :=
  if strategy =? "open_to_close" then ["Close"; "Open"]
  else if strategy =? "close_to_open" then ["Open"; "Close"]
  else if strategy =? "buy_and_hold" then ["Adj Close"]
  else [].

Definition column_missing (data : PriceTable) (t : ticker) (f : field) : bool :=
  match column_of data f t with
  | Some _ => false
  | None => true
  end.

(** The first required column the table lacks for the ticker, if any. *)
Definition first_missing (data : PriceTable) (strategy : string) (t : ticker)
  : option field :=
  find (column_missing data t) (required_fields strategy).

Definition has_required (data : PriceTable) (strategy : string) (t : ticker)
  : bool :=
  match first_missing data strategy t with
  | None => true
  | Some _ => false
  end.

(** What the handler writes for a ticker. *)
Definition skip_messages (data : PriceTable) (strategy : string) (t : ticker)
  : list ui_event :=
  match first_missing data strategy t with
  | Some f => [st_error (MsgCalcError t (KeyError [f; t]))]
  | None => []
  end.

(** AdjClose(d)/AdjClose(d-1), for every date that has a previous one. *)
Definition day_over_day (adj : list Qc) : list Qc :=
  intraday_ratios (tl adj) adj.

(** A ticker whose Adj Close holds a non-zero number on every date. *)
Definition adj_gap_free (data : PriceTable) (t : ticker) : Prop :=
  exists adj : list Qc,
    column_of data "Adj Close" t = Some (map Num adj)
    /\ Forall (fun a => a <> zero) adj.

(** Every column is as long as the index. *)
Definition rectangular (fr : DataFrame) : bool :=
  forallb (fun c => Nat.eqb (List.length (snd c)) (List.length (df_index fr)))
          (df_columns fr).

Definition is_st_error (ev : ui_event) : bool :=
  match ev with
  | st_error _ => true
  | st_plotly_chart _ => false
  end.

(** ** Notions for the statements about the ticker box *)

Fixpoint string_forallb (p : ascii -> bool) (s : string) : bool :=
  match s with
  | EmptyString => true
  | String c r => p c && string_forallb p r
  end.

Definition is_lower (c : ascii) : bool :=
  let n := nat_of_ascii c in (97 <=? n)%nat && (n <=? 122)%nat.

Definition starts_with_space (s : string) : bool :=
  match s with
  | EmptyString => false
  | String c _ => is_space c
  end.

Fixpoint ends_with_space (s : string) : bool :=
  match s with
  | EmptyString => false
  | String c EmptyString => is_space c
  | String _ r => ends_with_space r
  end.

(** [','.join(pieces)] *)
Fixpoint join_comma (pieces : list string) : string :=
  match pieces with
  | [] => EmptyString
  | [w] => w
  | w :: ws => w ++ String ","%char (join_comma ws)
  end.

Fixpoint count_commas (s : string) : nat :=
  match s with
  | EmptyString => 0
  | String c r => (if is_comma c then 1 else 0) + count_commas r
  end.

(** A symbol as [main] hands it to the fetch: no comma, no lower-case
    letter, no white space at either end. *)
Definition clean_symbol (w : string) : bool :=
  string_forallb (fun c => negb (is_comma c) && negb (is_lower c)) w
  && negb (starts_with_space w) && negb (ends_with_space w).

(** A ticker that leaves the frame without dates: skipped, or with an empty
    series. *)
Definition skipped_or_empty (data : PriceTable) (strategy : string)
  (t : ticker) : Prop :=
  match cumulative_returns data strategy t with
  | Ok s => s = []
  | Raise (KeyError _) => True
  | Raise _ => False
  end.

(** ** Notions for the statements about missing prices *)

(** A price that may be missing on a date; NaN in the table. *)
Definition of_opt (x : option Qc) : fl :=
  match x with
  | Some q => Num q
  | None => NaN
  end.

(** ** The same arithmetic in binary64

    [Float.fl] computes with exact rationals.  The code computes in
    binary64, where [1 + (r - 1)] need not be [r].  This module repeats the
    arithmetic of lines 19 and 28 for one ticker over the kernel's binary64
    floats, to evaluate it where the two differ.  The statements below that
    give values name the operations in the order the code performs them, so
    that they read the same in both arithmetics. *)

Module Binary64.

Import PrimFloat.
Local Open Scope float_scope.

(** The daily returns [nums / dens - 1], element by element. *)
Fixpoint daily (nums dens : list float) : list float :=
  match nums, dens with
  | n :: ns, d :: ds => (n / d - 1) :: daily ns ds
  | _, _ => []
  end.

(** [cumprod]: NaN entries are skipped by the product and stay NaN. *)
Fixpoint cumprod_skipna (acc : float) (l : list float) : list float :=
  match l with
  | [] => []
  | v :: r =>
      if is_nan v then nan :: cumprod_skipna acc r
      else (acc * v) :: cumprod_skipna (acc * v) r
  end.

(** [(1 + (Close / Open - 1)).cumprod()] *)
Definition open_to_close (opens closes : list float) : list float :=
  cumprod_skipna 1 (map (fun r => 1 + r) (daily closes opens)).

(** The running product of Close/Open itself. *)
Fixpoint ratios (nums dens : list float) : list float :=
  match nums, dens with
  | n :: ns, d :: ds => (n / d) :: ratios ns ds
  | _, _ => []
  end.

Definition product_of_ratios (opens closes : list float) : list float :=
  cumprod_skipna 1 (ratios closes opens).

Definition same (a b : list float) : bool :=
  Nat.eqb (List.length a) (List.length b)
  && forallb (fun p => eqb (fst p) (snd p)) (combine a b).

(** Open 3, Close 1 on a single date. *)
Definition open_3 : list float := [3].
Definition close_1 : list float := [1].

(** Open 2^60 then 1, Close 1 then 2. *)
Definition open_2p60_1 : list float := [0x1p60; 1].
Definition close_1_2 : list float := [1; 2].
Definition zero_zero : list float := [0; 0].

(** The example of two dates; 0x1.0cccccccccccdp+0 is the float 1.05. *)
Definition open_10_11 : list float := [10; 11].
Definition close_105_115 : list float := [10.5; 11.5].
Definition expected_105 : list float :=
  [0x1.0cccccccccccdp+0; 0x1.0cccccccccccdp+0 * (11.5 / 11)].

End Binary64.

(** * Properties *)

(** Equality of computed frames and figures, down to the rationals. *)
Ltac qc_eq := apply Qc_is_canon; vm_compute; reflexivity.

Ltac qc_neq :=
  let H := fresh in
  intros H; apply (f_equal this) in H; vm_compute in H; discriminate H.

Ltac fl_eq :=
  vm_compute;
  repeat match goal with
         | |- @eq Qc _ _ => qc_eq
         | |- _ => reflexivity
         | |- _ => f_equal
         end.


(** ** Arithmetic on finite values *)

Lemma Qc_eqb_eq (a b : Qc) : Qc_eqb a b = true <-> a = b.
Proof.
  unfold Qc_eqb. rewrite Qeq_bool_iff. split.
  - apply Qc_is_canon.
  - intros ->. reflexivity.
Qed.

Lemma Qc_eqb_neq (a b : Qc) : a <> b -> Qc_eqb a b = false.
Proof.
  intros H. destruct (Qc_eqb a b) eqn:E; [|reflexivity].
  apply Qc_eqb_eq in E. contradiction.
Qed.

Lemma Qc_ltb_lt (a b : Qc) : Qc_ltb a b = true <-> (a < b)%Qc.
Proof.
  unfold Qc_ltb, Qclt, Qccompare. rewrite Qlt_alt.
  destruct (this a ?= this b)%Q; split; intros H; try discriminate;
    reflexivity.
Qed.

Lemma div_num (a b : Qc) : b <> zero -> (Num a / Num b)%fl = Num (a / b)%Qc.
Proof.
  intros H. unfold div. now rewrite (Qc_eqb_neq _ _ H).
Qed.

(** ** Series *)

Lemma s_index_combine (idx : list date) (v : list fl) :
  List.length v = List.length idx -> s_index (combine idx v) = idx.
Proof.
  unfold s_index. revert v.
  induction idx as [|d r IH]; intros [|x v] H; simpl in *;
    try reflexivity; try discriminate.
  f_equal. apply IH. lia.
Qed.

Lemma s_values_combine (idx : list date) (v : list fl) :
  List.length v = List.length idx -> s_values (combine idx v) = v.
Proof.
  unfold s_values. revert v.
  induction idx as [|d r IH]; intros [|x v] H; simpl in *;
    try reflexivity; try discriminate.
  f_equal. apply IH. lia.
Qed.

Lemma s_index_smap g s : s_index (smap g s) = s_index s.
Proof.
  unfold s_index, smap. rewrite map_map. reflexivity.
Qed.

Lemma s_values_smap g s : s_values (smap g s) = map g (s_values s).
Proof.
  unfold s_values, smap. now rewrite !map_map.
Qed.

Lemma smap_combine g idx v :
  smap g (combine idx v) = combine idx (map g v).
Proof.
  revert v. induction idx as [|d r IH]; intros [|x v]; simpl;
    try reflexivity.
  f_equal. apply IH.
Qed.

Lemma s_index_zip_with op (a b : Series) :
  List.length a = List.length b -> s_index (zip_with op a b) = s_index a.
Proof.
  revert b. induction a as [|[d x] a IH]; intros [|[d' y] b] H; simpl in *;
    try reflexivity; try discriminate.
  f_equal. apply IH. lia.
Qed.

Lemma zip_with_combine op idx (u v : list fl) :
  List.length u = List.length idx -> List.length v = List.length idx ->
  zip_with op (combine idx u) (combine idx v)
  = combine idx (map (fun p => op (fst p) (snd p)) (combine u v)).
Proof.
  revert u v. induction idx as [|d r IH]; intros [|x u] [|y v] Hu Hv;
    simpl in *; try reflexivity; try discriminate.
  f_equal. apply IH; lia.
Qed.

Lemma s_index_cumprod_from acc s : s_index (cumprod_from acc s) = s_index s.
Proof.
  revert acc. induction s as [|[d v] r IH]; intros acc; simpl;
    [reflexivity|].
  destruct (isnan v); simpl; now rewrite IH.
Qed.

Lemma s_index_cumprod s : s_index (cumprod s) = s_index s.
Proof. apply s_index_cumprod_from. Qed.

Lemma intraday_div (cs os : list Qc) :
  Forall (fun o => o <> zero) os ->
  map (fun p => (fst p / snd p)%fl) (combine (map Num cs) (map Num os))
  = map Num (intraday_ratios cs os).
Proof.
  revert os. induction cs as [|c cs IH]; intros [|o os] H;
    cbn [map combine fst snd intraday_ratios]; try reflexivity.
  inversion H; subst. rewrite div_num by assumption. f_equal. now apply IH.
Qed.

Lemma intraday_ratios_length cs os :
  List.length (intraday_ratios cs os)
  = Nat.min (List.length cs) (List.length os).
Proof.
  revert os. induction cs as [|c cs IH]; intros [|o os]; simpl;
    try reflexivity.
  now rewrite IH.
Qed.

(** ** Running products *)

Lemma prefix_products_length acc l :
  List.length (prefix_products acc l) = List.length l.
Proof.
  revert acc. induction l as [|x r IH]; intros acc; [reflexivity|].
  cbn [prefix_products List.length]. now rewrite IH.
Qed.

Lemma prefix_products_nth l : forall acc i,
  (i < List.length l)%nat ->
  nth_error (prefix_products acc l) i
  = Some (fold_left mul (firstn (S i) l) acc).
Proof.
  induction l as [|x r IH]; intros acc i Hi; [simpl in Hi; lia|].
  destruct i as [|i].
  - reflexivity.
  - cbn [prefix_products nth_error]. cbn [List.length] in Hi.
    rewrite IH by lia. reflexivity.
Qed.

Lemma running_prefix_nth l i :
  (i < List.length l)%nat ->
  nth_error (prefix_products (of_Z 1) l) i = Some (running (firstn (S i) l)).
Proof. apply prefix_products_nth. Qed.

Lemma add_one_isnan r : isnan (of_Z 1 + r)%fl = isnan r.
Proof. destruct r; reflexivity. Qed.

(** Multiplying by 1 changes nothing, in binary64 as well. *)
Lemma mul_one_l g : (of_Z 1 * g)%fl = g.
Proof.
  destruct g as [q|s|]; [| |reflexivity].
  - unfold of_Z, mul. f_equal. change (Q2Qc (inject_Z 1)) with 1%Qc. ring.
  - unfold of_Z, mul.
    change (Qc_eqb (Q2Qc (inject_Z 1)) zero) with false.
    change (Qc_ltb (Q2Qc (inject_Z 1)) zero) with false.
    now rewrite xorb_false_r.
Qed.

Lemma map_num_no_nan (l : list Qc) :
  Forall (fun v => isnan v = false) (map Num l).
Proof. induction l; constructor; auto. Qed.

Lemma growth_factors_no_nan rs :
  Forall (fun v => isnan v = false) rs ->
  Forall (fun v => isnan v = false) (growth_factors rs).
Proof.
  intros H. unfold growth_factors. apply Forall_map.
  eapply Forall_impl; [|exact H]. intros r Hr. cbv beta.
  now rewrite add_one_isnan.
Qed.

Lemma growth_factors_length rs :
  List.length (growth_factors rs) = List.length rs.
Proof. apply length_map. Qed.

Lemma cumprod_from_no_nan idx : forall acc vs,
  Forall (fun v => isnan v = false) vs ->
  cumprod_from acc (combine idx vs) = combine idx (prefix_products acc vs).
Proof.
  induction idx as [|d r IH]; intros acc [|v vs] H; try reflexivity.
  cbn [combine cumprod_from prefix_products].
  rewrite (Forall_inv H). f_equal. apply IH. exact (Forall_inv_tail H).
Qed.

(** What [cumprod] makes of daily returns that hold no NaN. *)
Lemma cumulative_of_daily data strategy t idx rs :
  daily_returns data strategy t = Ok (combine idx rs) ->
  Forall (fun v => isnan v = false) rs ->
  cumulative_returns data strategy t
  = Ok (combine idx (prefix_products (of_Z 1) (growth_factors rs))).
Proof.
  intros E H. unfold cumulative_returns. rewrite E. cbn [rbind]. f_equal.
  rewrite smap_combine. unfold cumprod.
  apply cumprod_from_no_nan. now apply growth_factors_no_nan.
Qed.

Lemma daily_changes_zip (nums dens : list fl) :
  map (fun v => v - of_Z 1)%fl
      (map (fun p => (fst p / snd p)%fl) (combine nums dens))
  = daily_changes nums dens.
Proof.
  revert dens. induction nums as [|n ns IH]; intros [|d ds];
    try reflexivity.
  cbn [combine map fst snd daily_changes]. now rewrite IH.
Qed.

Lemma daily_changes_length nums dens :
  List.length (daily_changes nums dens)
  = Nat.min (List.length nums) (List.length dens).
Proof.
  revert dens. induction nums as [|n ns IH]; intros [|d ds];
    try reflexivity.
  cbn [daily_changes List.length]. now rewrite IH.
Qed.

Lemma daily_changes_num (ns ds : list Qc) :
  Forall (fun d => d <> zero) ds ->
  daily_changes (map Num ns) (map Num ds)
  = map Num (map (fun r => r - 1)%Qc (intraday_ratios ns ds)).
Proof.
  revert ds. induction ns as [|n ns IH]; intros [|d ds] H;
    try reflexivity.
  cbn [map daily_changes intraday_ratios].
  rewrite div_num by exact (Forall_inv H).
  rewrite (IH ds (Forall_inv_tail H)). reflexivity.
Qed.

Lemma daily_changes_num_no_nan (ns ds : list Qc) :
  Forall (fun d => d <> zero) ds ->
  Forall (fun v => isnan v = false) (daily_changes (map Num ns) (map Num ds)).
Proof.
  intros H. rewrite daily_changes_num by assumption. apply map_num_no_nan.
Qed.

(** ** The UI monad *)

Lemma ui_bind_assoc {A B C} (m : ui A) (k : A -> ui B) (h : B -> ui C) :
  ui_bind (ui_bind m k) h = ui_bind m (fun a => ui_bind (k a) h).
Proof.
  destruct m as [[a|e] log]; simpl; [|reflexivity].
  destruct (k a) as [[b|e] log']; simpl; [|reflexivity].
  destruct (h b) as [r log'']. now rewrite app_assoc.
Qed.

Lemma ui_bind_ret_l {A B} (a : A) (k : A -> ui B) :
  ui_bind (ui_ret a) k = k a.
Proof. unfold ui_ret, ui_bind. now destruct (k a). Qed.

(** ** Column assignment *)

Lemma index_eqb_refl idx : index_eqb idx idx = true.
Proof.
  induction idx as [|d r IH]; simpl; [reflexivity|].
  now rewrite Z.eqb_refl, IH.
Qed.

Lemma get_set_column_same t v cols :
  get_column t (set_column t v cols) = Some v.
Proof.
  induction cols as [|[t' v'] r IH]; simpl.
  - now rewrite String.eqb_refl.
  - destruct (t' =? t) eqn:E; simpl; rewrite E; [reflexivity|apply IH].
Qed.

Lemma get_set_column_other t t' v cols :
  t' <> t -> get_column t' (set_column t v cols) = get_column t' cols.
Proof.
  intros Hne. induction cols as [|[t0 v0] r IH]; simpl.
  - destruct (t =? t') eqn:E; [|reflexivity].
    apply String.eqb_eq in E. congruence.
  - destruct (t0 =? t) eqn:E; simpl.
    + apply String.eqb_eq in E. subst t0.
      destruct (t =? t') eqn:E'; [|reflexivity].
      apply String.eqb_eq in E'. congruence.
    + destruct (t0 =? t'); [reflexivity|apply IH].
Qed.

Lemma s_index_nil (s : Series) : s_index s = [] -> s = [].
Proof. destruct s; [reflexivity|discriminate]. Qed.

Lemma setitem_regular idx fr t s :
  s_index s = idx -> fresh_or_on idx fr ->
  df_index (setitem fr t s) = idx
  /\ get_column t (df_columns (setitem fr t s)) = Some (s_values s).
Proof.
  intros Hs [Hfr|[Hfr Hcols]]; unfold setitem, ensure_valid_index.
  - rewrite Hfr.
    assert (E : match idx with
               | [] => match s with
                       | [] => fr
                       | _ :: _ =>
                           mkFrame (s_index s)
                             (map (fun c => (fst c, map (fun _ => NaN) (s_index s)))
                                  (df_columns fr))
                       end
               | _ :: _ => fr
               end = fr).
    { destruct idx; [|reflexivity].
      now rewrite (s_index_nil _ Hs). }
    rewrite E. split; [assumption|].
    unfold reindex_for_setitem. rewrite Hfr, Hs, index_eqb_refl.
    apply get_set_column_same.
  - rewrite Hfr. destruct s as [|p s'].
    + simpl in Hs. subst idx. split; [assumption|].
      unfold reindex_for_setitem. rewrite Hfr. simpl.
      apply get_set_column_same.
    + cbn [df_index df_columns]. split; [assumption|].
      unfold reindex_for_setitem. cbn [df_index].
      rewrite index_eqb_refl. apply get_set_column_same.
Qed.

Lemma setitem_other fr t t' s :
  t' <> t -> (df_index fr = [] -> s = []) ->
  df_index (setitem fr t s) = df_index fr
  /\ get_column t' (df_columns (setitem fr t s))
     = get_column t' (df_columns fr).
Proof.
  intros Hne Hs. unfold setitem.
  assert (E : ensure_valid_index fr s = fr).
  { unfold ensure_valid_index. destruct (df_index fr) eqn:Ei; [|reflexivity].
    now rewrite (Hs eq_refl). }
  rewrite E. cbn [df_index df_columns]. split; [reflexivity|].
  now apply get_set_column_other.
Qed.

(** ** The loop of [calculate_returns] *)

Lemma loop_app data strategy (a b : list ticker) : forall fr,
  calculate_returns_loop data strategy (a ++ b) fr
  = ui_bind (calculate_returns_loop data strategy a fr)
            (calculate_returns_loop data strategy b).
Proof.
  induction a as [|t a IH]; intros fr.
  - cbn [app calculate_returns_loop]. now rewrite ui_bind_ret_l.
  - cbn [app calculate_returns_loop].
    destruct (cumulative_returns data strategy t) as [c|[k|m| |m]].
    + apply IH.
    + rewrite IH. unfold ui_emit.
      destruct (calculate_returns_loop data strategy a fr) as [[x|e] l];
        simpl; [|reflexivity].
      now destruct (calculate_returns_loop data strategy b x).
    + reflexivity.
    + reflexivity.
    + reflexivity.
Qed.

Section LoopInvariants.

Variables (data : PriceTable) (strategy : string) (idx : list date).

Lemma regular_tame t : regular data strategy idx t -> tame data strategy idx t.
Proof.
  unfold regular, tame.
  destruct (cumulative_returns data strategy t) as [c|e]; [|trivial].
  intros Hc Hi. apply s_index_nil. congruence.
Qed.

(** Later tickers leave a column alone once the frame carries [idx]. *)
Lemma loop_keeps ts : forall fr t v,
  Forall (tame data strategy idx) ts -> ~ In t ts ->
  df_index fr = idx -> get_column t (df_columns fr) = Some v ->
  exists fr' log,
    calculate_returns_loop data strategy ts fr = (Ok fr', log)
    /\ df_index fr' = idx
    /\ get_column t (df_columns fr') = Some v.
Proof.
  induction ts as [|t0 ts IH]; intros fr t v Htame Hnin Hidx Hcol.
  - exists fr, []. auto.
  - pose proof (Forall_inv Htame) as H0.
    pose proof (Forall_inv_tail Htame) as Hrest.
    assert (Hne : t <> t0) by (intros ->; apply Hnin; now left).
    assert (Hnin' : ~ In t ts) by (intros H; apply Hnin; now right).
    cbn [calculate_returns_loop]. unfold tame in H0.
    destruct (cumulative_returns data strategy t0) as [c|[k|m| |m]];
      try contradiction.
    + destruct (setitem_other fr t0 t c Hne) as [Hi Hc].
      { intros E. apply H0. congruence. }
      apply IH; try assumption; congruence.
    + destruct (IH fr t v Hrest Hnin' Hidx Hcol) as (fr' & log & E & Hi & Hc).
      exists fr', (st_error (MsgCalcError t0 (KeyError k)) :: log).
      unfold ui_emit. simpl. rewrite E. auto.
Qed.

(** Regular tickers keep the frame fresh or on [idx]. *)
Lemma loop_regular ts : forall fr,
  Forall (regular data strategy idx) ts -> fresh_or_on idx fr ->
  exists fr' log,
    calculate_returns_loop data strategy ts fr = (Ok fr', log)
    /\ fresh_or_on idx fr'.
Proof.
  induction ts as [|t0 ts IH]; intros fr Hreg Hfr.
  - exists fr, []. auto.
  - pose proof (Forall_inv Hreg) as H0.
    pose proof (Forall_inv_tail Hreg) as Hrest.
    cbn [calculate_returns_loop]. unfold regular in H0.
    destruct (cumulative_returns data strategy t0) as [c|[k|m| |m]];
      try contradiction.
    + apply IH; [assumption|]. left.
      now destruct (setitem_regular idx fr t0 c H0 Hfr).
    + destruct (IH fr Hrest Hfr) as (fr' & log & E & Hi).
      exists fr', (st_error (MsgCalcError t0 (KeyError k)) :: log).
      unfold ui_emit. simpl. rewrite E. auto.
Qed.

(** A ticker whose series lies on [idx], processed after regular tickers
    only, ends up in the result with exactly that series. *)
Lemma loop_column pre t post s :
  Forall (regular data strategy idx) pre ->
  cumulative_returns data strategy t = Ok s -> s_index s = idx ->
  Forall (tame data strategy idx) post -> ~ In t post ->
  exists fr log,
    calculate_returns_loop data strategy (pre ++ t :: post) empty_frame
    = (Ok fr, log)
    /\ df_index fr = idx
    /\ get_column t (df_columns fr) = Some (s_values s).
Proof.
  intros Hpre Hcum Hs Hpost Hnin.
  destruct (loop_regular pre empty_frame Hpre) as (fr1 & log1 & E1 & Hfr1).
  { right. auto. }
  destruct (setitem_regular idx fr1 t s Hs Hfr1) as [Hi2 Hc2].
  destruct (loop_keeps post (setitem fr1 t s) t (s_values s) Hpost Hnin Hi2 Hc2)
    as (fr3 & log3 & E3 & Hi3 & Hc3).
  exists fr3, (log1 ++ log3). split; [|auto].
  rewrite loop_app, E1.
  cbn [ui_bind calculate_returns_loop]. rewrite Hcum, E3. reflexivity.
Qed.

End LoopInvariants.

(** ** Tickers of a table *)

Lemma unique_In x l : In x (unique l) <-> In x l.
Proof.
  induction l as [|y r IH]; simpl; [tauto|].
  rewrite filter_In, IH. split.
  - intros [H|[H _]]; auto.
  - intros [H|H]; [now left|].
    destruct (x =? y) eqn:E.
    + apply String.eqb_eq in E. now left.
    + right. now split.
Qed.

Lemma unique_NoDup l : NoDup (unique l).
Proof.
  induction l as [|y r IH]; simpl; constructor.
  - rewrite filter_In. intros [_ H]. now rewrite String.eqb_refl in H.
  - now apply NoDup_filter.
Qed.

Lemma lookup_column_ticker f t cols v :
  lookup_column (f, t) cols = Some v ->
  In t (map (fun c => snd (fst c)) cols).
Proof.
  induction cols as [|[[f' t'] v'] r IH]; simpl; [discriminate|].
  unfold key_eqb. simpl.
  destruct (f =? f') eqn:Ef; destruct (t =? t') eqn:Et; simpl; auto.
  apply String.eqb_eq in Et. now left.
Qed.

Lemma column_of_tickers_of data f t v :
  column_of data f t = Some v -> In t (tickers_of data).
Proof.
  intros H. apply unique_In. eapply lookup_column_ticker; eauto.
Qed.

Lemma tickers_split data t :
  In t (tickers_of data) ->
  exists pre post, tickers_of data = pre ++ t :: post
                   /\ ~ In t pre /\ ~ In t post.
Proof.
  intros H. destruct (in_split _ _ H) as (pre & post & E).
  exists pre, post. split; [assumption|].
  pose proof (unique_NoDup (map (fun c => snd (fst c)) (columns data))) as N.
  fold (tickers_of data) in N. rewrite E in N.
  apply NoDup_remove_2 in N. rewrite in_app_iff in N. tauto.
Qed.

Lemma well_formed_column data f t v :
  well_formed data = true ->
  column_of data f t = Some v ->
  List.length v = List.length (index data).
Proof.
  unfold well_formed. intros H.
  apply andb_prop in H. destruct H as [_ H].
  rewrite forallb_forall in H. unfold column_of. intros L.
  assert (I : In ((f, t), v) (columns data) \/ exists k, In (k, v) (columns data)).
  { right. revert L. induction (columns data) as [|[k' v'] r IH]; simpl;
      [discriminate|].
    destruct (key_eqb (f, t) k').
    - intros [= ->]. exists k'. now left.
    - intros L. destruct (IH (fun x Hx => H x (or_intror Hx)) L) as [k Hk].
      exists k. now right. }
  destruct I as [I|[k I]]; apply H in I; now apply Nat.eqb_eq in I.
Qed.

(** ** Open to close *)

Lemma getitem_some data f t v :
  column_of data f t = Some v ->
  getitem data f t = Ok (combine (index data) v).
Proof. unfold getitem. now intros ->. Qed.

Lemma combine_length_eq (idx : list date) (v : list fl) :
  List.length v = List.length idx ->
  List.length (combine idx v) = List.length idx.
Proof. intros H. rewrite length_combine. lia. Qed.

Lemma open_to_close_regular data t :
  well_formed data = true -> regular data "open_to_close" (index data) t.
Proof.
  intros W. unfold regular, cumulative_returns, daily_returns.
  cbn [String.eqb Ascii.eqb Bool.eqb]. unfold getitem.
  destruct (column_of data "Close" t) as [vc|] eqn:Ec;
    [|exact I].
  destruct (column_of data "Open" t) as [vo|] eqn:Eo;
    [|exact I].
  cbn [rbind].
  pose proof (well_formed_column _ _ _ _ W Ec) as Lc.
  pose proof (well_formed_column _ _ _ _ W Eo) as Lo.
  rewrite s_index_cumprod, !s_index_smap, s_index_zip_with.
  - now apply s_index_combine.
  - rewrite !combine_length_eq; auto.
Qed.

Lemma open_to_close_daily data t (vc vo : list fl) :
  List.length vc = List.length (index data) ->
  List.length vo = List.length (index data) ->
  column_of data "Close" t = Some vc ->
  column_of data "Open" t = Some vo ->
  daily_returns data "open_to_close" t
  = Ok (combine (index data) (daily_changes vc vo)).
Proof.
  intros Lc Lo Ec Eo. unfold daily_returns.
  cbn [String.eqb Ascii.eqb Bool.eqb].
  rewrite (getitem_some _ _ _ _ Ec), (getitem_some _ _ _ _ Eo).
  cbn [rbind]. f_equal.
  rewrite zip_with_combine by assumption.
  rewrite smap_combine. f_equal. apply daily_changes_zip.
Qed.

Lemma open_to_close_series data t (closes opens : list Qc) :
  List.length closes = List.length (index data) ->
  List.length opens = List.length (index data) ->
  column_of data "Close" t = Some (map Num closes) ->
  column_of data "Open" t = Some (map Num opens) ->
  Forall (fun o => o <> zero) opens ->
  cumulative_returns data "open_to_close" t
  = Ok (combine (index data)
          (prefix_products (of_Z 1)
             (growth_factors (daily_changes (map Num closes) (map Num opens))))).
Proof.
  intros Lc Lo Ec Eo Hnz. apply cumulative_of_daily.
  - apply open_to_close_daily; rewrite ?length_map; assumption.
  - now apply daily_changes_num_no_nan.
Qed.

Lemma open_to_close_column data t (closes opens : list Qc) :
  well_formed data = true ->
  List.length closes = List.length (index data) ->
  List.length opens = List.length (index data) ->
  column_of data "Close" t = Some (map Num closes) ->
  column_of data "Open" t = Some (map Num opens) ->
  Forall (fun o => o <> zero) opens ->
  exists fr log,
    calculate_returns data "open_to_close" = (Ok fr, log)
    /\ df_index fr = index data
    /\ get_column t (df_columns fr)
       = Some (prefix_products (of_Z 1)
                 (growth_factors
                    (daily_changes (map Num closes) (map Num opens)))).
Proof.
  intros W Lc Lo Ec Eo Hnz.
  pose proof (open_to_close_series data t closes opens Lc Lo Ec Eo Hnz) as Hs.
  destruct (tickers_split data t (column_of_tickers_of _ _ _ _ Ec))
    as (pre & post & Et & _ & Hpost).
  set (gs := growth_factors (daily_changes (map Num closes) (map Num opens)))
    in *.
  assert (Lr : List.length (prefix_products (of_Z 1) gs)
               = List.length (index data)).
  { unfold gs. rewrite prefix_products_length, growth_factors_length,
      daily_changes_length, !length_map. lia. }
  destruct (loop_column data "open_to_close" (index data) pre t post
              (combine (index data) (prefix_products (of_Z 1) gs)))
    as (fr & log & E & Hi & Hc); try assumption.
  - apply Forall_forall. intros x _. now apply open_to_close_regular.
  - now apply s_index_combine.
  - apply Forall_forall. intros x _. apply regular_tame.
    now apply open_to_close_regular.
  - exists fr, log. unfold calculate_returns. rewrite Et.
    rewrite s_values_combine in Hc by assumption. auto.
Qed.

Lemma num_neq (a b : Qc) : Qc_eqb a b = false -> Num a <> Num b.
Proof.
  intros E H. injection H as H. apply Qc_eqb_eq in H. congruence.
Qed.







(** ** Close to open *)

Lemma combine_snoc {A B} (a : list A) (b : list B) x y :
  List.length a = List.length b ->
  combine (a ++ [x]) (b ++ [y]) = combine a b ++ [(x, y)].
Proof.
  revert b. induction a as [|h a IH]; intros [|h' b] H; simpl in *;
    try reflexivity; try discriminate.
  f_equal. apply IH. lia.
Qed.

Lemma dropna_num (idx : list date) (xs : list Qc) :
  dropna (combine idx (map Num xs)) = combine idx (map Num xs).
Proof.
  revert xs. induction idx as [|d r IH]; intros [|x xs]; simpl;
    try reflexivity.
  f_equal. apply IH.
Qed.

Lemma dropna_snoc_nan (idx : list date) d (xs : list Qc) :
  List.length xs = List.length idx ->
  dropna (combine (idx ++ [d]) (map Num xs ++ [NaN]))
  = combine idx (map Num xs).
Proof.
  intros L. rewrite combine_snoc by (rewrite length_map; lia).
  unfold dropna. rewrite filter_app. fold (dropna (combine idx (map Num xs))).
  rewrite dropna_num. simpl. apply app_nil_r.
Qed.

Lemma intraday_ratios_app a b c :
  List.length a = List.length b ->
  intraday_ratios a (b ++ c) = intraday_ratios a b.
Proof.
  revert b. induction a as [|x a IH]; intros [|y b] H; simpl in *;
    try reflexivity; try discriminate.
  f_equal. apply IH. lia.
Qed.

Lemma map_sub_one (l : list Qc) :
  map (fun v => v - of_Z 1)%fl (map Num l)
  = map Num (map (fun r => r - 1)%Qc l).
Proof.
  induction l as [|x l IH]; cbn [map]; [reflexivity|].
  rewrite IH. f_equal.
Qed.

Lemma close_to_open_daily data t (opens closes : list Qc) :
  List.length opens = List.length (index data) ->
  List.length closes = List.length (index data) ->
  column_of data "Open" t = Some (map Num opens) ->
  column_of data "Close" t = Some (map Num closes) ->
  Forall (fun c => c <> zero) closes ->
  daily_returns data "close_to_open" t
  = Ok (combine (removelast (index data))
          (map Num (map (fun r => r - 1)%Qc (overnight_ratios opens closes)))).
Proof.
  intros Lo Lc Eo Ec Hnz. unfold daily_returns.
  cbn [String.eqb Ascii.eqb Bool.eqb].
  rewrite (getitem_some _ _ _ _ Eo), (getitem_some _ _ _ _ Ec).
  cbn [rbind]. f_equal.
  destruct (index data) as [|d0 idx0] eqn:Ei.
  { destruct opens; [|discriminate]. reflexivity. }
  assert (Hne : d0 :: idx0 <> []) by discriminate.
  destruct opens as [|o0 os]; [discriminate|].
  assert (Hc : closes <> []) by (destruct closes; discriminate).
  rewrite (app_removelast_last zero Hc) in *.
  set (cs := removelast closes) in *. set (cl := last closes zero) in *.
  clearbody cs cl. clear Hc.
  rewrite length_app in Lc. simpl in Lc, Lo.
  unfold shift_up.
  rewrite s_index_combine, s_values_combine
    by (rewrite length_map; simpl; lia).
  cbn [map shift_values_up].
  rewrite zip_with_combine
    by (rewrite ?length_app, ?length_map, ?length_app; simpl; lia).
  rewrite map_app. cbn [map].
  rewrite combine_snoc.
  2:{ rewrite !length_map. lia. }
  rewrite map_app. cbn [map fst snd div].
  rewrite intraday_div by (apply Forall_app in Hnz; tauto).
  rewrite smap_combine, map_app, map_sub_one. cbn [map sub add opp].
  unfold overnight_ratios. cbn [tl].
  rewrite intraday_ratios_app by lia.
  rewrite (app_removelast_last 0%Z Hne) at 1.
  apply dropna_snoc_nan.
  rewrite length_map, intraday_ratios_length.
  pose proof (f_equal (@List.length _) (app_removelast_last 0%Z Hne)) as Ln.
  rewrite length_app in Ln. cbn [List.length] in Ln. unfold date in *. lia.
Qed.

Lemma close_to_open_changes data t (opens closes : list Qc) :
  List.length opens = List.length (index data) ->
  List.length closes = List.length (index data) ->
  column_of data "Open" t = Some (map Num opens) ->
  column_of data "Close" t = Some (map Num closes) ->
  Forall (fun c => c <> zero) closes ->
  daily_returns data "close_to_open" t
  = Ok (combine (removelast (index data))
          (daily_changes (map Num (tl opens)) (map Num closes))).
Proof.
  intros Lo Lc Eo Ec Hnz.
  rewrite (close_to_open_daily data t opens closes Lo Lc Eo Ec Hnz).
  unfold overnight_ratios. now rewrite daily_changes_num.
Qed.

Lemma close_to_open_series data t (opens closes : list Qc) :
  List.length opens = List.length (index data) ->
  List.length closes = List.length (index data) ->
  column_of data "Open" t = Some (map Num opens) ->
  column_of data "Close" t = Some (map Num closes) ->
  Forall (fun c => c <> zero) closes ->
  cumulative_returns data "close_to_open" t
  = Ok (combine (removelast (index data))
          (prefix_products (of_Z 1)
             (growth_factors
                (daily_changes (map Num (tl opens)) (map Num closes))))).
Proof.
  intros Lo Lc Eo Ec Hnz. apply cumulative_of_daily.
  - now apply close_to_open_changes.
  - now apply daily_changes_num_no_nan.
Qed.

Lemma close_to_open_tame data t :
  tame data "close_to_open" (removelast (index data)) t.
Proof.
  unfold tame, cumulative_returns, daily_returns.
  cbn [String.eqb Ascii.eqb Bool.eqb]. unfold getitem.
  destruct (column_of data "Open" t) as [vo|]; [|exact I].
  destruct (column_of data "Close" t) as [vc|]; [|exact I].
  cbn [rbind]. intros Hi.
  destruct (index data) as [|d [|d' idx]]; [reflexivity| |discriminate].
  destruct vo as [|x vo]; [reflexivity|].
  destruct vc as [|y vc]; [reflexivity|].
  reflexivity.
Qed.

Lemma close_to_open_regular data t :
  well_formed data = true ->
  lacks_open_or_close data t \/ gap_free data t ->
  regular data "close_to_open" (removelast (index data)) t.
Proof.
  intros W [[H|H]|(opens & closes & Eo & Ec & Hnz)]; unfold regular.
  - unfold cumulative_returns, daily_returns.
    cbn [String.eqb Ascii.eqb Bool.eqb]. unfold getitem. rewrite H.
    exact I.
  - unfold cumulative_returns, daily_returns.
    cbn [String.eqb Ascii.eqb Bool.eqb]. unfold getitem. rewrite H.
    now destruct (column_of data "Open" t).
  - pose proof (well_formed_column _ _ _ _ W Eo) as Lo.
    pose proof (well_formed_column _ _ _ _ W Ec) as Lc.
    rewrite length_map in Lo, Lc.
    rewrite (close_to_open_series data t opens closes Lo Lc Eo Ec Hnz).
    apply s_index_combine.
    rewrite prefix_products_length, growth_factors_length,
      daily_changes_length, !length_map.
    destruct opens as [|o os]; destruct (index data) as [|d idx] eqn:Ei;
      try discriminate; [reflexivity|].
    assert (Hne : d :: idx <> []) by discriminate.
    pose proof (f_equal (@List.length _) (app_removelast_last 0%Z Hne)) as Ln.
    rewrite length_app in Ln. cbn [List.length tl] in *. unfold date in *.
    lia.
Qed.




(** ** Which tickers a result holds *)

Lemma set_column_tickers t v cols t' :
  In t' (map fst (set_column t v cols)) <-> t' = t \/ In t' (map fst cols).
Proof.
  induction cols as [|[t0 v0] r IH]; simpl.
  - intuition.
  - destruct (t0 =? t) eqn:E; simpl.
    + apply String.eqb_eq in E. subst t0. intuition.
    + rewrite IH. intuition.
Qed.

Lemma setitem_tickers fr t s t' :
  In t' (frame_tickers (setitem fr t s))
  <-> t' = t \/ In t' (frame_tickers fr).
Proof.
  unfold frame_tickers, setitem. cbn [df_columns].
  rewrite set_column_tickers.
  assert (E : map fst (df_columns (ensure_valid_index fr s))
              = map fst (df_columns fr)).
  { unfold ensure_valid_index.
    destruct (df_index fr); [|reflexivity].
    destruct s; [reflexivity|]. cbn [df_columns].
    rewrite map_map. reflexivity. }
  rewrite E. reflexivity.
Qed.

Lemma get_column_tickers t cols :
  get_column t cols <> None <-> In t (map fst cols).
Proof.
  induction cols as [|[t0 v0] r IH]; simpl.
  - intuition.
  - destruct (t0 =? t) eqn:E.
    + apply String.eqb_eq in E. split; [auto|discriminate].
    + apply String.eqb_neq in E. rewrite IH. intuition.
Qed.

Lemma loop_members data strategy ts : forall fr,
  Forall (recoverable data strategy) ts ->
  exists fr' log,
    calculate_returns_loop data strategy ts fr = (Ok fr', log)
    /\ (forall t, In t (frame_tickers fr')
         <-> In t (frame_tickers fr)
             \/ (In t ts /\ exists s, cumulative_returns data strategy t = Ok s))
    /\ (forall ev, In ev log
         <-> exists t k, In t ts
               /\ cumulative_returns data strategy t = Raise (KeyError k)
               /\ ev = st_error (MsgCalcError t (KeyError k))).
Proof.
  induction ts as [|t0 ts IH]; intros fr Hrec.
  - exists fr, []. split; [reflexivity|]. split.
    + intros t. simpl. intuition.
    + intros ev. simpl. split; [tauto|]. intros (t & k & [] & _).
  - pose proof (Forall_inv Hrec) as H0.
    pose proof (Forall_inv_tail Hrec) as Hrest.
    cbn [calculate_returns_loop]. unfold recoverable in H0.
    destruct (cumulative_returns data strategy t0) as [c|[k|m| |m]] eqn:E0;
      try contradiction.
    + destruct (IH (setitem fr t0 c) Hrest) as (fr' & log & E & Hm & Hl).
      exists fr', log. split; [assumption|]. split.
      * intros t. rewrite Hm, setitem_tickers. simpl. split.
        -- intros [[->|H]|[H Hs]]; eauto 6.
        -- intros [H|[[->|H] Hs]]; eauto.
      * intros ev. rewrite Hl. split.
        -- intros (t & k & Hin & Hk & Hev). exists t, k. simpl. auto.
        -- intros (t & k & [->|Hin] & Hk & Hev); [congruence|eauto].
    + destruct (IH fr Hrest) as (fr' & log & E & Hm & Hl).
      exists fr', (st_error (MsgCalcError t0 (KeyError k)) :: log).
      split; [unfold ui_emit; simpl; now rewrite E|]. split.
      * intros t. rewrite Hm. simpl. split.
        -- intros [H|[H Hs]]; eauto.
        -- intros [H|[[->|H] [s Hs]]]; [auto|congruence|eauto].
      * intros ev. simpl. rewrite Hl. split.
        -- intros [<-|(t & k' & Hin & Hk & Hev)]; eauto 8.
        -- intros (t & k' & [->|Hin] & Hk & Hev).
           ++ left. congruence.
           ++ right. eauto.
Qed.

Lemma valid_strategy_recoverable data strategy t :
  valid_strategy strategy = true -> recoverable data strategy t.
Proof.
  unfold valid_strategy, recoverable, cumulative_returns, daily_returns,
    getitem.
  intros V.
  destruct (strategy =? "open_to_close").
  { destruct (column_of data "Close" t); [|exact I].
    now destruct (column_of data "Open" t). }
  destruct (strategy =? "close_to_open").
  { destruct (column_of data "Open" t); [|exact I].
    now destruct (column_of data "Close" t). }
  destruct (strategy =? "buy_and_hold"); [|discriminate].
  now destruct (column_of data "Adj Close" t).
Qed.

Lemma calculate_returns_members data strategy :
  valid_strategy strategy = true ->
  exists fr log,
    calculate_returns data strategy = (Ok fr, log)
    /\ (forall t, In t (frame_tickers fr)
         <-> In t (tickers_of data)
             /\ exists s, cumulative_returns data strategy t = Ok s)
    /\ (forall ev, In ev log
         <-> exists t k, In t (tickers_of data)
               /\ cumulative_returns data strategy t = Raise (KeyError k)
               /\ ev = st_error (MsgCalcError t (KeyError k))).
Proof.
  intros V.
  destruct (loop_members data strategy (tickers_of data) empty_frame)
    as (fr & log & E & Hm & Hl).
  { apply Forall_forall. intros t _. now apply valid_strategy_recoverable. }
  exists fr, log. split; [exact E|]. split; [|exact Hl].
  intros t. rewrite Hm. simpl. tauto.
Qed.

(** C8: with at least one ticker in the table, a strategy outside the three
    known names makes [calculate_returns] end in ValueError("Invalid
    strategy"); the per-ticker handler does not absorb it and nothing is
    reported. *)
Theorem invalid_strategy_raises data strategy :
  valid_strategy strategy = false ->
  tickers_of data <> [] ->
  calculate_returns data strategy
  = (Raise (ValueError "Invalid strategy"), []).
Proof.
  intros V Hne. unfold calculate_returns.
  destruct (tickers_of data) as [|t ts]; [congruence|].
  cbn [calculate_returns_loop].
  unfold cumulative_returns, daily_returns, valid_strategy in *.
  destruct (strategy =? "open_to_close"); [discriminate|].
  destruct (strategy =? "close_to_open"); [discriminate|].
  destruct (strategy =? "buy_and_hold"); [discriminate|].
  reflexivity.
Qed.

Lemma invalid_strategy_raises_witness :
  calculate_returns two_days_X "overnight"
  = (Raise (ValueError "Invalid strategy"), []).
Proof.
  apply (invalid_strategy_raises two_days_X "overnight").
  - reflexivity.
  - discriminate.
Defined.

(** C6: a ticker without an Adj Close column, its Open and Close present,
    is skipped by buy_and_hold with a message naming it while every ticker
    that has an Adj Close is still processed; open_to_close and
    close_to_open both keep the ticker. *)
Theorem missing_adj_close_is_per_strategy data t vo vc :
  column_of data "Adj Close" t = None ->
  column_of data "Open" t = Some vo ->
  column_of data "Close" t = Some vc ->
  (exists fr log,
     calculate_returns data "buy_and_hold" = (Ok fr, log)
     /\ In (st_error (MsgCalcError t (KeyError ["Adj Close"; t]))) log
     /\ ~ In t (frame_tickers fr)
     /\ forall t' va, column_of data "Adj Close" t' = Some va ->
                      In t' (frame_tickers fr))
  /\ (exists fr log,
        calculate_returns data "open_to_close" = (Ok fr, log)
        /\ In t (frame_tickers fr))
  /\ (exists fr log,
        calculate_returns data "close_to_open" = (Ok fr, log)
        /\ In t (frame_tickers fr)).
Proof.
  intros Ea Eo Ec.
  pose proof (column_of_tickers_of _ _ _ _ Eo) as Hin.
  split; [|split].
  - destruct (calculate_returns_members data "buy_and_hold" eq_refl)
      as (fr & log & E & Hm & Hl).
    assert (Hk : cumulative_returns data "buy_and_hold" t
                 = Raise (KeyError ["Adj Close"; t])).
    { unfold cumulative_returns, daily_returns, getitem.
      cbn [String.eqb Ascii.eqb Bool.eqb]. now rewrite Ea. }
    exists fr, log. split; [exact E|]. split; [|split].
    + apply Hl. eauto.
    + rewrite Hm. intros [_ [s Hs]]. congruence.
    + intros t' va Ha. apply Hm. split.
      * eapply column_of_tickers_of; eauto.
      * unfold cumulative_returns, daily_returns, getitem.
        cbn [String.eqb Ascii.eqb Bool.eqb]. rewrite Ha. cbn [rbind]. eauto.
  - destruct (calculate_returns_members data "open_to_close" eq_refl)
      as (fr & log & E & Hm & _).
    exists fr, log. split; [exact E|]. apply Hm. split; [assumption|].
    unfold cumulative_returns, daily_returns, getitem.
    cbn [String.eqb Ascii.eqb Bool.eqb]. rewrite Eo, Ec. cbn [rbind]. eauto.
  - destruct (calculate_returns_members data "close_to_open" eq_refl)
      as (fr & log & E & Hm & _).
    exists fr, log. split; [exact E|]. apply Hm. split; [assumption|].
    unfold cumulative_returns, daily_returns, getitem.
    cbn [String.eqb Ascii.eqb Bool.eqb]. rewrite Eo, Ec. cbn [rbind]. eauto.
Qed.

Lemma missing_adj_close_is_per_strategy_witness :
  (exists fr log,
     calculate_returns no_adj_close_B "buy_and_hold" = (Ok fr, log)
     /\ In (st_error (MsgCalcError "B" (KeyError ["Adj Close"; "B"]))) log
     /\ ~ In "B" (frame_tickers fr)
     /\ forall t' va, column_of no_adj_close_B "Adj Close" t' = Some va ->
                      In t' (frame_tickers fr))
  /\ (exists fr log,
        calculate_returns no_adj_close_B "open_to_close" = (Ok fr, log)
        /\ In "B" (frame_tickers fr))
  /\ (exists fr log,
        calculate_returns no_adj_close_B "close_to_open" = (Ok fr, log)
        /\ In "B" (frame_tickers fr)).
Proof.
  apply (missing_adj_close_is_per_strategy no_adj_close_B "B"
           [of_Z 20; of_Z 20] [of_Z 20; of_Z 21]); reflexivity.
Defined.

(** ** The renderer *)

Lemma frame_getitem_present df t :
  In t (frame_tickers df) -> exists s, frame_getitem df t = Ok s.
Proof.
  intros H. apply get_column_tickers in H. unfold frame_getitem.
  destruct (get_column t (df_columns df)); [eauto|congruence].
Qed.

Lemma frame_getitem_absent df t :
  ~ In t (frame_tickers df) -> frame_getitem df t = Raise (KeyError [t]).
Proof.
  intros H. unfold frame_getitem.
  destruct (get_column t (df_columns df)) eqn:E; [|reflexivity].
  exfalso. apply H. apply get_column_tickers. congruence.
Qed.

Lemma dollars_scale df t s k :
  frame_getitem df t = Ok s -> s_values (scale s k) = dollars df t k.
Proof.
  intros E. unfold dollars, scale. rewrite E. apply s_values_smap.
Qed.

Lemma plot_loop_complete o c b k ts : forall trs av,
  (forall t, In t ts ->
     In t (frame_tickers o) /\ In t (frame_tickers c)
     /\ In t (frame_tickers b)) ->
  exists av',
    plot_loop o c b k ts trs av
    = Ok (trs ++ flat_map (dollar_traces o c b k) ts, av').
Proof.
  induction ts as [|t ts IH]; intros trs av H.
  - exists av. simpl. now rewrite app_nil_r.
  - destruct (H t (or_introl eq_refl)) as (Ho & Hc & Hb).
    destruct (frame_getitem_present _ _ Ho) as [so Eo].
    destruct (frame_getitem_present _ _ Hc) as [sc Ec].
    destruct (frame_getitem_present _ _ Hb) as [sb Eb].
    cbn [plot_loop]. rewrite Eo, Ec, Eb. cbn [rbind].
    destruct (IH (trs ++ ticker_traces o c b t (scale so k) (scale sc k)
                                        (scale sb k))
                 (av ++ s_values (scale so k) ++ s_values (scale sc k)
                     ++ s_values (scale sb k)))
      as [av' E].
    { intros t' Ht'. apply H. now right. }
    exists av'. rewrite E. f_equal. f_equal.
    rewrite <- app_assoc. f_equal. cbn [flat_map]. f_equal.
    unfold ticker_traces, dollar_traces.
    now rewrite (dollars_scale _ _ _ _ Eo), (dollars_scale _ _ _ _ Ec),
      (dollars_scale _ _ _ _ Eb).
Qed.

Lemma log_range_total av k : exists r, log_range av k = Ok r.
Proof.
  unfold log_range.
  assert (Hmax : exists m, np_max (av ++ [k]) = Ok m).
  { destruct av; simpl; eauto. }
  destruct Hmax as [mx Emx]. rewrite Emx.
  destruct (positive_values (av ++ [k])) as [|p ps]; cbn [rbind np_min];
    eauto.
Qed.

(** C4: whenever the three frames hold the tickers of the open-to-close
    frame and that frame has a date, the renderer draws the chart, and the
    value on each line is the cumulative return at that date times the
    initial investment; [1.0, 1.05] at 100 gives [100, 105]. *)
Theorem dollar_value_is_return_times_investment
  o c b start_date end_date initial_investment log_scale :
  df_index o <> [] ->
  (forall t, In t (frame_tickers o) ->
     In t (frame_tickers c) /\ In t (frame_tickers b)) ->
  (exists fig,
     plot_investment_value o c b start_date end_date initial_investment
                           log_scale
     = (Ok tt, [st_plotly_chart fig])
     /\ traces fig
        = flat_map (dollar_traces o c b initial_investment) (frame_tickers o)
          ++ [reference_line o initial_investment])
  /\ (forall df t s i v,
        frame_getitem df t = Ok s ->
        nth_error (s_values s) i = Some v ->
        nth_error (dollars df t initial_investment) i
        = Some (v * initial_investment)%fl)
  /\ dollars (mkFrame [1; 2]%Z [("X", [of_Z 1; of_frac 105 100])]) "X"
             (of_Z 100)
     = [of_Z 100; of_Z 105].
Proof.
  intros Hidx Hall. split; [|split].
  - unfold plot_investment_value, build_figure.
    destruct (plot_loop_complete o c b initial_investment (frame_tickers o)
                [] []) as [av E].
    { intros t Ht. destruct (Hall t Ht). auto. }
    rewrite E. cbn [rbind app fst snd].
    unfold reference_line.
    destruct (df_index o) as [|d r] eqn:Ei; [congruence|].
    cbn [index_first index_last rbind].
    destruct log_scale.
    + destruct (log_range_total av initial_investment) as [rg Er].
      rewrite Er. cbn [rbind ui_lift ui_bind ui_emit app].
      eexists. split; reflexivity.
    + cbn [ui_lift ui_bind ui_emit app]. eexists. split; reflexivity.
  - intros df t s i v E Hv. unfold dollars. rewrite E.
    exact (map_nth_error (fun x => (x * initial_investment)%fl) _ _ Hv).
  - fl_eq.
Qed.

Lemma dollar_value_is_return_times_investment_witness :
  exists fig,
    plot_investment_value returns_X returns_X returns_X 1%Z 3%Z (of_Z 100)
                          false
    = (Ok tt, [st_plotly_chart fig])
    /\ traces fig
       = flat_map (dollar_traces returns_X returns_X returns_X (of_Z 100))
                  (frame_tickers returns_X)
         ++ [reference_line returns_X (of_Z 100)].
Proof.
  apply (dollar_value_is_return_times_investment
           returns_X returns_X returns_X 1%Z 3%Z (of_Z 100) false).
  - discriminate.
  - intros t Ht. split; exact Ht.
Defined.

(** ** Parsing the ticker box *)

Lemma split_comma_nonempty text : split_comma text <> [].
Proof.
  destruct text as [|c r]; simpl; [discriminate|].
  destruct (is_comma c); [discriminate|].
  destruct (split_comma r); discriminate.
Qed.

Lemma parse_tickers_nonempty text : parse_tickers text <> [].
Proof.
  unfold parse_tickers.
  pose proof (split_comma_nonempty (upper text)) as H.
  destruct (split_comma (upper text)); [congruence|discriminate].
Qed.

Lemma main_unfold yf_download start_date end_date text initial_investment
  log_scale button :
  main yf_download start_date end_date text initial_investment log_scale button
  = if button
    then catch_all (run_backtest yf_download (parse_tickers text) start_date
                                 end_date initial_investment log_scale)
    else [].
Proof.
  unfold main. pose proof (parse_tickers_nonempty text) as H.
  destruct button; [|reflexivity].
  destruct (parse_tickers text); [congruence|reflexivity].
Qed.

(** ** A ticker missing from one frame *)

Lemma plot_loop_missing o c b k ts : forall trs av,
  (forall t, In t ts -> In t (frame_tickers o)) ->
  (exists t, In t ts /\ ~ In t (frame_tickers b)) ->
  exists t', plot_loop o c b k ts trs av = Raise (KeyError [t']).
Proof.
  induction ts as [|t0 ts IH]; intros trs av Ho [t [Hin Hb]];
    [destruct Hin|].
  destruct (frame_getitem_present o t0 (Ho t0 (or_introl eq_refl)))
    as [so Eo].
  cbn [plot_loop]. rewrite Eo. cbn [rbind].
  destruct (in_dec string_dec t0 (frame_tickers c)) as [Hc|Hc].
  - destruct (frame_getitem_present c t0 Hc) as [sc Ec].
    rewrite Ec. cbn [rbind].
    destruct (in_dec string_dec t0 (frame_tickers b)) as [Hb0|Hb0].
    + destruct (frame_getitem_present b t0 Hb0) as [sb Eb].
      rewrite Eb. cbn [rbind]. apply IH.
      * intros t' Ht'. apply Ho. now right.
      * exists t. split; [|assumption].
        destruct Hin as [->|Hin]; [contradiction|assumption].
    + rewrite (frame_getitem_absent b t0 Hb0). cbn [rbind]. eauto.
  - rewrite (frame_getitem_absent c t0 Hc). cbn [rbind]. eauto.
Qed.

Lemma ui_bind_ok {A B} (m : ui A) (k : A -> ui B) a l r l' :
  m = (Ok a, l) -> k a = (r, l') -> ui_bind m k = (r, l ++ l').
Proof. intros -> E. simpl. now rewrite E. Qed.

(** C5: when a ticker has Open and Close but no Adj Close, buy_and_hold
    reports and skips it, yet the renderer walks the open-to-close tickers,
    asks the buy-and-hold frame for the missing one and fails with
    KeyError; [main] ends with the error message and draws no chart, for
    the complete tickers either. *)
Theorem missing_adj_close_aborts_chart data t vo vc yf_download
  start_date end_date text initial_investment log_scale :
  table_empty data = false ->
  column_of data "Adj Close" t = None ->
  column_of data "Open" t = Some vo ->
  column_of data "Close" t = Some vc ->
  yf_download (parse_tickers text) start_date end_date = Ok data ->
  (exists t' log,
     main yf_download start_date end_date text initial_investment log_scale
          true
     = log ++ [st_error (MsgUnexpected (KeyError [t']))]
     /\ In (st_error (MsgCalcError t (KeyError ["Adj Close"; t]))) log
     /\ forall ev, In ev log -> exists m, ev = st_error m)
  /\ main (fun _ _ _ => Ok no_adj_close_B) 1%Z 3%Z "a,b" (of_Z 100)
          false true
     = [st_error (MsgCalcError "B" (KeyError ["Adj Close"; "B"]));
        st_error (MsgUnexpected (KeyError ["B"]))].
Proof.
  intros Hne Ea Eo Ec Hf. split; [|reflexivity].
  pose proof (column_of_tickers_of _ _ _ _ Eo) as Hin.
  destruct (calculate_returns_members data "open_to_close" eq_refl)
    as (o & lo & Eco & Hmo & Hlo).
  destruct (calculate_returns_members data "close_to_open" eq_refl)
    as (c & lc & Ecc & Hmc & Hlc).
  destruct (calculate_returns_members data "buy_and_hold" eq_refl)
    as (b & lb & Ecb & Hmb & Hlb).
  assert (Hto : In t (frame_tickers o)).
  { apply Hmo. split; [assumption|].
    unfold cumulative_returns, daily_returns, getitem.
    cbn [String.eqb Ascii.eqb Bool.eqb]. rewrite Eo, Ec. cbn [rbind]. eauto. }
  assert (Hk : cumulative_returns data "buy_and_hold" t
               = Raise (KeyError ["Adj Close"; t])).
  { unfold cumulative_returns, daily_returns, getitem.
    cbn [String.eqb Ascii.eqb Bool.eqb]. now rewrite Ea. }
  assert (Htb : ~ In t (frame_tickers b)).
  { rewrite Hmb. intros [_ [s Hs]]. congruence. }
  destruct (plot_loop_missing o c b initial_investment (frame_tickers o)
              [] [] (fun t' H => H)) as [t' Ep]; [eauto|].
  assert (Eplot : plot_investment_value o c b start_date end_date
                    initial_investment log_scale
                  = (Raise (KeyError [t']), [])).
  { unfold plot_investment_value, build_figure. rewrite Ep. reflexivity. }
  exists t', (lo ++ lc ++ lb ++ []). split; [|split].
  - rewrite main_unfold. unfold run_backtest, fetch_data. rewrite Hf.
    cbn [ui_lift ui_bind]. rewrite Hne.
    rewrite (ui_bind_ok _ _ o lo (Raise (KeyError [t'])) (lc ++ lb ++ []) Eco).
    + reflexivity.
    + apply (ui_bind_ok _ _ c lc _ _ Ecc).
      apply (ui_bind_ok _ _ b lb _ _ Ecb). exact Eplot.
  - rewrite !in_app_iff. right. right. left. apply Hlb. eauto.
  - intros ev. rewrite !in_app_iff.
    intros [H|[H|[H|[]]]];
      [apply Hlo in H|apply Hlc in H|apply Hlb in H];
      destruct H as (t0 & k & _ & _ & ->); eauto.
Qed.

Lemma missing_adj_close_aborts_chart_witness :
  exists t' log,
    main (fun _ _ _ => Ok no_adj_close_B) 1%Z 3%Z "a,b" (of_Z 100) false true
    = log ++ [st_error (MsgUnexpected (KeyError [t']))]
    /\ In (st_error (MsgCalcError "B" (KeyError ["Adj Close"; "B"]))) log
    /\ forall ev, In ev log -> exists m, ev = st_error m.
Proof.
  apply (missing_adj_close_aborts_chart no_adj_close_B "B"
           [of_Z 20; of_Z 20] [of_Z 20; of_Z 21]
           (fun _ _ _ => Ok no_adj_close_B) 1%Z 3%Z "a,b" (of_Z 100) false);
    reflexivity.
Defined.

(** The sibling case: when B lacks its Open instead, it is absent from the
    open-to-close frame, the chart is drawn and shows A only. *)
Lemma missing_open_still_draws :
  exists fig,
    main (fun _ _ _ => Ok no_open_B) 1%Z 3%Z "a,b" (of_Z 100) false true
    = [st_error (MsgCalcError "B" (KeyError ["Open"; "B"]));
       st_error (MsgCalcError "B" (KeyError ["Open"; "B"]));
       st_plotly_chart fig]
    /\ map tr_name (traces fig)
       = ["A - Apertura a Cierre"; "A - Cierre a Apertura";
          "A - Comprar y Mantener"; "Inversión Inicial"].
Proof.
  eexists. split; [vm_compute; reflexivity|reflexivity].
Qed.

(** ** Empty tables *)

Lemma empty_index_regular data strategy t :
  index data = [] -> valid_strategy strategy = true ->
  regular data strategy [] t.
Proof.
  intros Hi V.
  unfold valid_strategy, regular, cumulative_returns, daily_returns,
    getitem in *.
  rewrite Hi.
  destruct (strategy =? "open_to_close").
  { destruct (column_of data "Close" t); [|exact I].
    now destruct (column_of data "Open" t). }
  destruct (strategy =? "close_to_open").
  { destruct (column_of data "Open" t); [|exact I].
    now destruct (column_of data "Close" t). }
  destruct (strategy =? "buy_and_hold"); [|discriminate].
  now destruct (column_of data "Adj Close" t).
Qed.

Lemma empty_table_empty_frame data strategy :
  table_empty data = true -> valid_strategy strategy = true ->
  exists fr log,
    calculate_returns data strategy = (Ok fr, log) /\ frame_empty fr = true.
Proof.
  intros He V. unfold table_empty in He.
  destruct (index data) as [|d idx] eqn:Ei.
  - destruct (loop_regular data strategy [] (tickers_of data) empty_frame)
      as (fr & log & E & Hfr).
    + apply Forall_forall. intros t _. now apply empty_index_regular.
    + right. auto.
    + exists fr, log. split; [exact E|].
      unfold frame_empty. now destruct Hfr as [->|[-> _]].
  - destruct (columns data) as [|c cols] eqn:Ec; [|discriminate].
    exists empty_frame, []. unfold calculate_returns, tickers_of.
    rewrite Ec. auto.
Qed.

(** The renderer on what [calculate_returns] gives for the empty table:
    the reference line indexes an empty index and IndexError leaves
    [plot_investment_value]. *)
Lemma renderer_raises_on_empty_frames :
  calculate_returns (mkTable [] []) "open_to_close" = (Ok empty_frame, [])
  /\ calculate_returns (mkTable [] []) "close_to_open" = (Ok empty_frame, [])
  /\ calculate_returns (mkTable [] []) "buy_and_hold" = (Ok empty_frame, [])
  /\ plot_investment_value empty_frame empty_frame empty_frame 1%Z 3%Z
                           (of_Z 100) false
     = (Raise IndexError, []).
Proof. repeat split. Qed.

(** C7, amended: for an empty price table each of the three strategies
    yields an empty frame of returns, and [main] reports that no data was
    found and returns before the renderer is reached. *)
Theorem empty_table_is_stopped_before_rendering data :
  table_empty data = true ->
  (forall strategy, valid_strategy strategy = true ->
     exists fr log,
       calculate_returns data strategy = (Ok fr, log)
       /\ frame_empty fr = true)
  /\ (forall yf_download start_date end_date text initial_investment
             log_scale,
        yf_download (parse_tickers text) start_date end_date = Ok data ->
        main yf_download start_date end_date text initial_investment
             log_scale true
        = [st_error MsgNoData]).
Proof.
  intros He. split.
  - intros strategy V. now apply empty_table_empty_frame.
  - intros yf sd ed text k ls Hf. rewrite main_unfold.
    unfold run_backtest, fetch_data. rewrite Hf.
    cbn [ui_lift ui_bind]. rewrite He. reflexivity.
Qed.

Lemma empty_table_is_stopped_before_rendering_witness :
  (forall strategy, valid_strategy strategy = true ->
     exists fr log,
       calculate_returns (mkTable [] []) strategy = (Ok fr, log)
       /\ frame_empty fr = true)
  /\ (forall yf_download start_date end_date text initial_investment
             log_scale,
        yf_download (parse_tickers text) start_date end_date
        = Ok (mkTable [] []) ->
        main yf_download start_date end_date text initial_investment
             log_scale true
        = [st_error MsgNoData]).
Proof.
  apply (empty_table_is_stopped_before_rendering (mkTable [] [])).
  reflexivity.
Defined.

(** ** The logarithmic axis *)

Lemma fmax_num a b : fmax (Num a) (Num b) = Num (if Qc_ltb a b then b else a).
Proof. unfold fmax. simpl. now destruct (Qc_ltb a b). Qed.

Lemma fmin_num a b : fmin (Num a) (Num b) = Num (if Qc_ltb b a then b else a).
Proof. unfold fmin. simpl. now destruct (Qc_ltb b a). Qed.

Lemma Qc_ltb_false_le a b : Qc_ltb a b = false -> (b <= a)%Qc.
Proof.
  intros H. apply Qcnot_lt_le. intros L. apply Qc_ltb_lt in L. congruence.
Qed.

Lemma fold_fmax_num l : forall x,
  exists m, fold_left fmax (map Num l) (Num x) = Num m
            /\ In m (x :: l) /\ Forall (fun y => (y <= m)%Qc) (x :: l).
Proof.
  induction l as [|y l IH]; intros x.
  - exists x. simpl. repeat split; auto. constructor; [apply Qcle_refl|constructor].
  - cbn [map fold_left]. rewrite fmax_num.
    destruct (Qc_ltb x y) eqn:E.
    + destruct (IH y) as (m & Em & Hin & Hall). exists m.
      split; [assumption|]. split; [now right|].
      constructor; [|assumption].
      apply Qc_ltb_lt in E. pose proof (Forall_inv Hall) as Hy.
      eapply Qcle_trans; [apply Qclt_le_weak; eassumption|assumption].
    + destruct (IH x) as (m & Em & Hin & Hall). exists m.
      split; [assumption|]. split.
      * destruct Hin as [<-|Hin]; [now left|right; now right].
      * pose proof (Forall_inv Hall) as Hx.
        pose proof (Forall_inv_tail Hall) as Hl.
        constructor; [assumption|]. constructor; [|assumption].
        eapply Qcle_trans; [apply Qc_ltb_false_le; eassumption|assumption].
Qed.

Lemma fold_fmin_num l : forall x,
  exists m, fold_left fmin (map Num l) (Num x) = Num m
            /\ In m (x :: l) /\ Forall (fun y => (m <= y)%Qc) (x :: l).
Proof.
  induction l as [|y l IH]; intros x.
  - exists x. simpl. repeat split; auto. constructor; [apply Qcle_refl|constructor].
  - cbn [map fold_left]. rewrite fmin_num.
    destruct (Qc_ltb y x) eqn:E.
    + destruct (IH y) as (m & Em & Hin & Hall). exists m.
      split; [assumption|]. split; [now right|].
      constructor; [|assumption].
      apply Qc_ltb_lt in E. pose proof (Forall_inv Hall) as Hy.
      eapply Qcle_trans; [eassumption|now apply Qclt_le_weak].
    + destruct (IH x) as (m & Em & Hin & Hall). exists m.
      split; [assumption|]. split.
      * destruct Hin as [<-|Hin]; [now left|right; now right].
      * pose proof (Forall_inv Hall) as Hx.
        pose proof (Forall_inv_tail Hall) as Hl.
        constructor; [assumption|]. constructor; [|assumption].
        eapply Qcle_trans; [eassumption|now apply Qc_ltb_false_le].
Qed.

Lemma positive_values_num (l : list Qc) :
  positive_values (map Num l) = map Num (filter (Qc_ltb zero) l).
Proof.
  unfold positive_values. induction l as [|x l IH]; [reflexivity|].
  cbn [map filter]. change (gtb (Num x) (of_Z 0)) with (Qc_ltb zero x).
  destruct (Qc_ltb zero x); cbn [map]; now rewrite IH.
Qed.



(** ** Blank input *)

Lemma upper_ascii_space_or_comma c :
  is_space c || is_comma c = true -> upper_ascii c = c.
Proof.
  destruct c as [[] [] [] [] [] [] [] []]; intros H;
    try reflexivity; discriminate H.
Qed.

Lemma upper_blank s : blank s = true -> upper s = s.
Proof.
  induction s as [|c r IH]; simpl; [reflexivity|].
  intros H. apply andb_prop in H. destruct H as [Hc Hr].
  now rewrite (upper_ascii_space_or_comma c Hc), IH.
Qed.

Lemma split_comma_blank s :
  blank s = true -> Forall (fun w => all_space w = true) (split_comma s).
Proof.
  induction s as [|c r IH]; simpl.
  - intros _. repeat constructor.
  - intros H. apply andb_prop in H. destruct H as [Hc Hr].
    specialize (IH Hr). destruct (is_comma c) eqn:E.
    + constructor; [reflexivity|assumption].
    + rewrite orb_false_r in Hc.
      destruct (split_comma r) as [|w ws]; constructor; simpl;
        try now rewrite Hc.
      * constructor.
      * rewrite Hc. exact (Forall_inv IH).
      * exact (Forall_inv_tail IH).
Qed.

Lemma lstrip_all_space w : all_space w = true -> lstrip w = EmptyString.
Proof.
  induction w as [|c r IH]; simpl; [reflexivity|].
  intros H. apply andb_prop in H. destruct H as [Hc Hr].
  rewrite Hc. now apply IH.
Qed.

Lemma strip_all_space w : all_space w = true -> strip w = EmptyString.
Proof.
  intros H. unfold strip. now rewrite (lstrip_all_space w H).
Qed.

Lemma Forall_firstn_keeps {A} (P : A -> Prop) n : forall l,
  Forall P l -> Forall P (firstn n l).
Proof.
  induction n as [|n IH]; intros [|x l] H; simpl; try constructor.
  - exact (Forall_inv H).
  - apply IH. exact (Forall_inv_tail H).
Qed.

Lemma parse_tickers_blank text :
  blank text = true -> Forall (fun w => w = EmptyString) (parse_tickers text).
Proof.
  intros H. unfold parse_tickers. rewrite (upper_blank text H).
  apply Forall_firstn_keeps. apply Forall_map.
  eapply Forall_impl; [|apply split_comma_blank; exact H].
  intros w. apply strip_all_space.
Qed.

(** C10: splitting on commas always gives at least one piece, so the list
    of tickers is never empty and [main] never takes the branch that asks
    for a symbol; a text of whitespace and commas only goes on to the fetch
    with empty symbols. *)
Theorem ticker_list_never_empty yf_download start_date end_date text
  initial_investment log_scale button :
  split_comma text <> []
  /\ parse_tickers text <> []
  /\ main yf_download start_date end_date text initial_investment log_scale
          button
     = (if button
        then catch_all (run_backtest yf_download (parse_tickers text)
                          start_date end_date initial_investment log_scale)
        else [])
  /\ (blank text = true ->
      Forall (fun w => w = EmptyString) (parse_tickers text)).
Proof.
  split; [apply split_comma_nonempty|].
  split; [apply parse_tickers_nonempty|].
  split; [apply main_unfold|].
  apply parse_tickers_blank.
Qed.

Lemma ticker_list_never_empty_witness :
  blank " , " = true
  /\ parse_tickers " , " = [EmptyString; EmptyString]
  /\ Forall (fun w => w = EmptyString) (parse_tickers " , ").
Proof.
  split; [reflexivity|]. split; [reflexivity|].
  apply (ticker_list_never_empty (fun _ _ _ => Ok two_days_X) 1%Z 3%Z " , "
           (of_Z 100) false true).
  reflexivity.
Defined.

(** * Further properties of the code *)

(** ** Outcome of one ticker *)

Lemma valid_strategy_cases strategy :
  valid_strategy strategy = true ->
  strategy = "open_to_close" \/ strategy = "close_to_open"
  \/ strategy = "buy_and_hold".
Proof.
  unfold valid_strategy. intros V.
  destruct (strategy =? "open_to_close") eqn:E1;
    [apply String.eqb_eq in E1; auto|].
  destruct (strategy =? "close_to_open") eqn:E2;
    [apply String.eqb_eq in E2; auto|].
  destruct (strategy =? "buy_and_hold") eqn:E3;
    [apply String.eqb_eq in E3; auto|discriminate].
Qed.

Lemma cumulative_returns_outcome data strategy t :
  valid_strategy strategy = true ->
  match first_missing data strategy t with
  | None => exists s, cumulative_returns data strategy t = Ok s
  | Some f => cumulative_returns data strategy t = Raise (KeyError [f; t])
  end.
Proof.
  intros V.
  destruct (valid_strategy_cases strategy V) as [-> | [-> | ->]];
    unfold first_missing, required_fields, column_missing,
      cumulative_returns, daily_returns, getitem;
    cbn [String.eqb Ascii.eqb Bool.eqb find].
  - destruct (column_of data "Close" t); [|reflexivity].
    destruct (column_of data "Open" t); [|reflexivity].
    cbn [rbind]. eauto.
  - destruct (column_of data "Open" t); [|reflexivity].
    destruct (column_of data "Close" t); [|reflexivity].
    cbn [rbind]. eauto.
  - destruct (column_of data "Adj Close" t); [|reflexivity].
    cbn [rbind]. eauto.
Qed.

(** ** Order of the result and of the messages *)

Lemma set_column_fresh t v cols :
  ~ In t (map fst cols) -> map fst (set_column t v cols) = map fst cols ++ [t].
Proof.
  induction cols as [|[t' v'] r IH]; simpl; intros H; [reflexivity|].
  destruct (t' =? t) eqn:E.
  - apply String.eqb_eq in E. exfalso. apply H. now left.
  - simpl. f_equal. apply IH. intros Hin. apply H. now right.
Qed.

Lemma ensure_valid_index_tickers fr s :
  frame_tickers (ensure_valid_index fr s) = frame_tickers fr.
Proof.
  unfold frame_tickers, ensure_valid_index.
  destruct (df_index fr); [|reflexivity].
  destruct s; [reflexivity|]. cbn [df_columns]. now rewrite map_map.
Qed.

Lemma setitem_fresh fr t s :
  ~ In t (frame_tickers fr) ->
  frame_tickers (setitem fr t s) = frame_tickers fr ++ [t].
Proof.
  intros H. pose proof (ensure_valid_index_tickers fr s) as E.
  unfold setitem, frame_tickers in *. cbn [df_columns].
  rewrite set_column_fresh; rewrite E; [reflexivity|assumption].
Qed.

Lemma loop_in_order data strategy ts : forall fr,
  valid_strategy strategy = true ->
  NoDup ts -> (forall t, In t ts -> ~ In t (frame_tickers fr)) ->
  exists fr',
    calculate_returns_loop data strategy ts fr
    = (Ok fr', flat_map (skip_messages data strategy) ts)
    /\ frame_tickers fr'
       = frame_tickers fr ++ filter (has_required data strategy) ts.
Proof.
  induction ts as [|t ts IH]; intros fr V Hnd Hfresh.
  - exists fr. simpl. now rewrite app_nil_r.
  - inversion Hnd as [|? ? Hnin Hnd']; subst.
    cbn [calculate_returns_loop flat_map filter].
    pose proof (cumulative_returns_outcome data strategy t V) as Ho.
    unfold skip_messages at 1. unfold has_required at 1.
    destruct (first_missing data strategy t) as [f|].
    + rewrite Ho.
      destruct (IH fr V Hnd') as (fr' & E & Ht).
      { intros t' Ht'. apply Hfresh. now right. }
      exists fr'. unfold ui_emit. simpl. rewrite E. auto.
    + destruct Ho as [s Es]. rewrite Es.
      destruct (IH (setitem fr t s) V Hnd') as (fr' & E & Ht).
      { intros t' Ht'. rewrite setitem_tickers. intros [->|H].
        - contradiction.
        - revert H. apply Hfresh. now right. }
      exists fr'. split; [exact E|].
      rewrite Ht, setitem_fresh by (apply Hfresh; now left).
      now rewrite <- app_assoc.
Qed.

Lemma calculate_returns_in_order data strategy :
  valid_strategy strategy = true ->
  exists fr,
    calculate_returns data strategy
    = (Ok fr, flat_map (skip_messages data strategy) (tickers_of data))
    /\ frame_tickers fr
       = filter (has_required data strategy) (tickers_of data).
Proof.
  intros V.
  destruct (loop_in_order data strategy (tickers_of data) empty_frame V)
    as (fr & E & Ht).
  - apply unique_NoDup.
  - intros t _ [].
  - exists fr. auto.
Qed.

(** X1: for one of the three strategies [calculate_returns] never raises;
    the result holds, in the table's ticker order, exactly the tickers that
    have every column the strategy reads, and the page gets, in the same
    order, one message per other ticker that names the first column it
    lacks. *)
Theorem tickers_kept_or_reported_in_order data strategy :
  valid_strategy strategy = true ->
  exists fr,
    calculate_returns data strategy
    = (Ok fr, flat_map (skip_messages data strategy) (tickers_of data))
    /\ frame_tickers fr
       = filter (has_required data strategy) (tickers_of data)
    /\ NoDup (frame_tickers fr)
    /\ (List.length (frame_tickers fr)
        + List.length (flat_map (skip_messages data strategy)
                                (tickers_of data))
        = List.length (tickers_of data))%nat.
Proof.
  intros V. destruct (calculate_returns_in_order data strategy V)
    as (fr & E & Ht).
  exists fr. split; [exact E|]. split; [exact Ht|]. split.
  - rewrite Ht. apply NoDup_filter, unique_NoDup.
  - rewrite Ht. clear E Ht.
    induction (tickers_of data) as [|t ts IH]; [reflexivity|].
    cbn [filter flat_map]. rewrite length_app.
    unfold has_required at 1, skip_messages at 1.
    destruct (first_missing data strategy t); simpl; lia.
Qed.

Lemma tickers_kept_or_reported_in_order_witness :
  exists fr,
    calculate_returns no_adj_close_B "buy_and_hold"
    = (Ok fr, flat_map (skip_messages no_adj_close_B "buy_and_hold")
                       (tickers_of no_adj_close_B))
    /\ frame_tickers fr
       = filter (has_required no_adj_close_B "buy_and_hold")
                (tickers_of no_adj_close_B)
    /\ NoDup (frame_tickers fr)
    /\ (List.length (frame_tickers fr)
        + List.length (flat_map (skip_messages no_adj_close_B "buy_and_hold")
                                (tickers_of no_adj_close_B))
        = List.length (tickers_of no_adj_close_B))%nat.
Proof.
  apply (tickers_kept_or_reported_in_order no_adj_close_B "buy_and_hold").
  reflexivity.
Defined.

(** ** The only exception *)

(** X2: [calculate_returns] raises in one case only: the strategy is none
    of the three names and the table has a ticker, and then it is
    ValueError("Invalid strategy") with nothing written; with an unknown
    strategy and no ticker it returns the empty frame. *)
Theorem calculate_returns_raises_only_on_strategy data strategy :
  (forall e log,
     calculate_returns data strategy = (Raise e, log) ->
     e = ValueError "Invalid strategy" /\ log = []
     /\ valid_strategy strategy = false /\ tickers_of data <> [])
  /\ (valid_strategy strategy = false -> tickers_of data = [] ->
      calculate_returns data strategy = (Ok empty_frame, [])).
Proof.
  split.
  - intros e log E.
    destruct (valid_strategy strategy) eqn:V.
    + destruct (calculate_returns_in_order data strategy V) as (fr & E' & _).
      congruence.
    + unfold calculate_returns in E.
      destruct (tickers_of data) as [|t ts]; [discriminate E|].
      cbn [calculate_returns_loop] in E.
      unfold cumulative_returns, daily_returns, valid_strategy in *.
      destruct (strategy =? "open_to_close"); [discriminate V|].
      destruct (strategy =? "close_to_open"); [discriminate V|].
      destruct (strategy =? "buy_and_hold"); [discriminate V|].
      cbn [rbind] in E. unfold ui_raise in E. injection E as <- <-.
      repeat split; discriminate.
  - intros _ Ht. unfold calculate_returns. now rewrite Ht.
Qed.

Lemma calculate_returns_raises_only_on_strategy_witness :
  calculate_returns (mkTable [1]%Z []) "overnight" = (Ok empty_frame, []).
Proof.
  apply (calculate_returns_raises_only_on_strategy (mkTable [1]%Z [])
           "overnight"); reflexivity.
Defined.

(** ** Shape of the result *)

Lemma index_eqb_eq a : forall b, index_eqb a b = true -> a = b.
Proof.
  induction a as [|x a IH]; intros [|y b] H; simpl in H;
    try reflexivity; try discriminate.
  apply andb_prop in H. destruct H as [Hx Hr].
  apply Z.eqb_eq in Hx. subst y. f_equal. now apply IH.
Qed.

Lemma rectangular_forall fr :
  rectangular fr = true
  <-> Forall (fun c => List.length (snd c) = List.length (df_index fr))
             (df_columns fr).
Proof.
  unfold rectangular. rewrite forallb_forall, Forall_forall.
  split; intros H c Hc; specialize (H c Hc); now apply Nat.eqb_eq.
Qed.

Lemma set_column_lengths n t v cols :
  List.length v = n ->
  Forall (fun c : ticker * list fl => List.length (snd c) = n) cols ->
  Forall (fun c : ticker * list fl => List.length (snd c) = n)
         (set_column t v cols).
Proof.
  intros Hv. induction cols as [|[t' v'] r IH]; intros H; simpl.
  - constructor; [exact Hv|constructor].
  - destruct (t' =? t); constructor.
    + exact Hv.
    + exact (Forall_inv_tail H).
    + exact (Forall_inv H).
    + apply IH. exact (Forall_inv_tail H).
Qed.

Lemma setitem_rectangular fr t s :
  rectangular fr = true -> rectangular (setitem fr t s) = true.
Proof.
  rewrite !rectangular_forall. intros H. unfold setitem.
  cbn [df_index df_columns].
  assert (H' : Forall (fun c => List.length (snd c)
                                = List.length (df_index (ensure_valid_index fr s)))
                      (df_columns (ensure_valid_index fr s))).
  { unfold ensure_valid_index. destruct (df_index fr) eqn:Ei.
    - destruct s as [|p s']; [now rewrite Ei|].
      cbn [df_index df_columns]. apply Forall_map, Forall_forall.
      intros c _. cbn [snd]. apply length_map.
    - now rewrite Ei. }
  apply set_column_lengths; [|exact H'].
  unfold reindex_for_setitem.
  destruct (index_eqb (s_index s) (df_index (ensure_valid_index fr s)))
    eqn:Eq.
  - apply index_eqb_eq in Eq. rewrite <- Eq.
    unfold s_values, s_index. now rewrite !length_map.
  - destruct (df_index (ensure_valid_index fr s)) eqn:Ei.
    + unfold ensure_valid_index in Ei. destruct (df_index fr) eqn:Ef.
      * destruct s as [|p s']; [reflexivity|]. cbn [df_index] in Ei.
        discriminate Ei.
      * congruence.
    + unfold reindex. apply length_map.
Qed.

Lemma loop_rectangular data strategy ts : forall fr fr' log,
  calculate_returns_loop data strategy ts fr = (Ok fr', log) ->
  rectangular fr = true -> rectangular fr' = true.
Proof.
  induction ts as [|t ts IH]; intros fr fr' log E R.
  - simpl in E. unfold ui_ret in E. now injection E as <- _.
  - cbn [calculate_returns_loop] in E.
    destruct (cumulative_returns data strategy t) as [c|[k|m| |m]];
      try discriminate E.
    + eapply IH; [exact E|]. now apply setitem_rectangular.
    + unfold ui_emit in E. cbn [ui_bind] in E.
      destruct (calculate_returns_loop data strategy ts fr) as [[x|e] l] eqn:El;
        [|discriminate E].
      injection E as <- _. eapply IH; eauto.
Qed.

(** X3: whatever the table and the strategy, a frame that
    [calculate_returns] returns is rectangular: every ticker's column has
    exactly one value per date of the frame's index. *)
Theorem calculate_returns_rectangular data strategy fr log :
  calculate_returns data strategy = (Ok fr, log) ->
  rectangular fr = true
  /\ forall t v, get_column t (df_columns fr) = Some v ->
                 List.length v = List.length (df_index fr).
Proof.
  intros E.
  assert (R : rectangular fr = true).
  { eapply loop_rectangular; [exact E|reflexivity]. }
  split; [exact R|].
  apply rectangular_forall in R. intros t v Hv.
  induction (df_columns fr) as [|[t' v'] r IH]; simpl in Hv;
    [discriminate|].
  destruct (t' =? t).
  - injection Hv as <-. exact (Forall_inv R).
  - apply IH; [exact (Forall_inv_tail R)|exact Hv].
Qed.

Lemma calculate_returns_rectangular_witness :
  rectangular (mkFrame [2]%Z [("A", [of_Z 1]); ("B", [of_frac 12 10])]) = true
  /\ forall t v,
       get_column t [("A", [of_Z 1]); ("B", [of_frac 12 10])] = Some v ->
       List.length v = 1%nat.
Proof.
  apply (calculate_returns_rectangular late_listing "close_to_open"
           (mkFrame [2]%Z [("A", [of_Z 1]); ("B", [of_frac 12 10])]) []).
  fl_eq.
Defined.

(** ** Open-to-close and close-to-open side by side *)

Lemma has_required_same data t :
  has_required data "open_to_close" t = has_required data "close_to_open" t.
Proof.
  unfold has_required, first_missing, required_fields, column_missing.
  cbn [String.eqb Ascii.eqb Bool.eqb find].
  destruct (column_of data "Close" t); destruct (column_of data "Open" t);
    reflexivity.
Qed.

(** X4: open_to_close and close_to_open read the same two columns, so on
    any table their results hold the same tickers in the same order and the
    two calls write the same number of messages. *)
Theorem open_to_close_and_close_to_open_same_tickers data :
  exists o lo c lc,
    calculate_returns data "open_to_close" = (Ok o, lo)
    /\ calculate_returns data "close_to_open" = (Ok c, lc)
    /\ frame_tickers o = frame_tickers c
    /\ List.length lo = List.length lc.
Proof.
  destruct (calculate_returns_in_order data "open_to_close" eq_refl)
    as (o & Eo & Ho).
  destruct (calculate_returns_in_order data "close_to_open" eq_refl)
    as (c & Ec & Hc).
  exists o, (flat_map (skip_messages data "open_to_close") (tickers_of data)),
    c, (flat_map (skip_messages data "close_to_open") (tickers_of data)).
  split; [exact Eo|]. split; [exact Ec|]. split.
  - rewrite Ho, Hc. apply filter_ext. intros t. apply has_required_same.
  - clear. induction (tickers_of data) as [|t ts IH]; [reflexivity|].
    cbn [flat_map]. rewrite !length_app, IH.
    pose proof (has_required_same data t) as H.
    unfold has_required, skip_messages in *.
    destruct (first_missing data "open_to_close" t);
      destruct (first_missing data "close_to_open" t);
      try reflexivity; discriminate H.
Qed.

(** ** Dates of the open-to-close result *)

Lemma loop_all_skipped data strategy ts : forall fr,
  Forall (fun t => has_required data strategy t = false) ts ->
  valid_strategy strategy = true ->
  exists log, calculate_returns_loop data strategy ts fr = (Ok fr, log).
Proof.
  induction ts as [|t ts IH]; intros fr H V.
  - exists []. reflexivity.
  - pose proof (Forall_inv H) as Ht. pose proof (Forall_inv_tail H) as Hr.
    cbn [calculate_returns_loop].
    pose proof (cumulative_returns_outcome data strategy t V) as Ho.
    unfold has_required in Ht.
    destruct (first_missing data strategy t) as [f|]; [|discriminate].
    rewrite Ho. destruct (IH fr Hr V) as [log E].
    unfold ui_emit. simpl. rewrite E. eauto.
Qed.

(** X5: on a well-formed table the open_to_close result keeps the table's
    dates, all of them and in order, as soon as one ticker has both Open
    and Close; when no ticker has both, the result is the frame without
    rows and columns. *)
Theorem open_to_close_keeps_the_dates data :
  well_formed data = true ->
  exists fr log,
    calculate_returns data "open_to_close" = (Ok fr, log)
    /\ ((exists t, In t (tickers_of data)
                   /\ has_required data "open_to_close" t = true) ->
        df_index fr = index data)
    /\ ((forall t, In t (tickers_of data) ->
                   has_required data "open_to_close" t = false) ->
        fr = empty_frame).
Proof.
  intros W.
  destruct (calculate_returns_in_order data "open_to_close" eq_refl)
    as (fr & E & Ht).
  exists fr, (flat_map (skip_messages data "open_to_close") (tickers_of data)).
  split; [exact E|]. split.
  - intros (t & Hin & Hreq).
    pose proof (cumulative_returns_outcome data "open_to_close" t eq_refl)
      as Ho.
    unfold has_required in Hreq.
    destruct (first_missing data "open_to_close" t); [discriminate|].
    destruct Ho as [s Es].
    pose proof (open_to_close_regular data t W) as Hreg.
    unfold regular in Hreg. rewrite Es in Hreg.
    destruct (tickers_split data t Hin) as (pre & post & Et & _ & Hpost).
    destruct (loop_column data "open_to_close" (index data) pre t post s)
      as (fr2 & log2 & E2 & Hi & _); try assumption.
    + apply Forall_forall. intros x _. now apply open_to_close_regular.
    + apply Forall_forall. intros x _. apply regular_tame.
      now apply open_to_close_regular.
    + unfold calculate_returns in E. rewrite Et in E. congruence.
  - intros Hnone.
    destruct (loop_all_skipped data "open_to_close" (tickers_of data)
                empty_frame) as [log E'].
    + now apply Forall_forall.
    + reflexivity.
    + unfold calculate_returns in E. congruence.
Qed.

Lemma open_to_close_keeps_the_dates_witness :
  exists fr log,
    calculate_returns late_listing "open_to_close" = (Ok fr, log)
    /\ ((exists t, In t (tickers_of late_listing)
                   /\ has_required late_listing "open_to_close" t = true) ->
        df_index fr = index late_listing)
    /\ ((forall t, In t (tickers_of late_listing) ->
                   has_required late_listing "open_to_close" t = false) ->
        fr = empty_frame).
Proof.
  apply (open_to_close_keeps_the_dates late_listing). reflexivity.
Defined.

(** ** Buy and hold *)

Lemma ffill_num last idx (l : list Qc) :
  ffill_from last (combine idx (map Num l)) = combine idx (map Num l).
Proof.
  revert last l. induction idx as [|d r IH]; intros last [|x l]; simpl;
    try reflexivity.
  f_equal. apply IH.
Qed.

Lemma removelast_map_num (l : list Qc) :
  removelast (map Num l) = map Num (removelast l).
Proof.
  induction l as [|x l IH]; [reflexivity|].
  destruct l as [|y l]; [reflexivity|].
  cbn [map removelast] in *. now rewrite IH.
Qed.

Lemma removelast_length {A} (l : list A) :
  List.length (removelast l) = (List.length l - 1)%nat.
Proof.
  induction l as [|x l IH]; [reflexivity|].
  destruct l as [|y l]; [reflexivity|].
  cbn [removelast List.length] in *. lia.
Qed.

Lemma day_over_day_removelast a0 (adj : list Qc) :
  intraday_ratios adj (removelast (a0 :: adj)) = day_over_day (a0 :: adj).
Proof.
  unfold day_over_day. cbn [tl].
  assert (Hne : a0 :: adj <> []) by discriminate.
  rewrite (app_removelast_last zero Hne) at 2.
  rewrite intraday_ratios_app; [reflexivity|].
  rewrite removelast_length. simpl. lia.
Qed.

Lemma buy_and_hold_daily data t (adj : list Qc) :
  List.length adj = List.length (index data) ->
  column_of data "Adj Close" t = Some (map Num adj) ->
  Forall (fun a => a <> zero) adj ->
  daily_returns data "buy_and_hold" t
  = Ok (combine (tl (index data))
          (map Num (map (fun r => r - 1)%Qc (day_over_day adj)))).
Proof.
  intros La Ea Hnz. unfold daily_returns.
  cbn [String.eqb Ascii.eqb Bool.eqb].
  rewrite (getitem_some _ _ _ _ Ea). cbn [rbind]. f_equal.
  unfold pct_change. rewrite ffill_num.
  destruct (index data) as [|d0 idx] eqn:Ei.
  { destruct adj; [|discriminate]. reflexivity. }
  destruct adj as [|a0 adj]; [discriminate|].
  unfold shift_down.
  rewrite s_index_combine, s_values_combine by (rewrite length_map; exact La).
  rewrite removelast_map_num.
  rewrite zip_with_combine.
  2:{ now rewrite length_map. }
  2:{ cbn [List.length]. rewrite length_map, removelast_length.
      simpl in *. lia. }
  rewrite smap_combine.
  change (map Num (a0 :: adj)) with (Num a0 :: map Num adj).
  cbn [combine map fst snd div]. rewrite intraday_div.
  2:{ assert (Hne : a0 :: adj <> []) by discriminate.
      rewrite (app_removelast_last zero Hne) in Hnz.
      apply Forall_app in Hnz. tauto. }
  rewrite day_over_day_removelast, map_sub_one.
  cbn [sub add opp dropna filter snd isnan negb tl].
  apply dropna_num.
Qed.

Lemma buy_and_hold_changes data t (adj : list Qc) :
  List.length adj = List.length (index data) ->
  column_of data "Adj Close" t = Some (map Num adj) ->
  Forall (fun a => a <> zero) adj ->
  daily_returns data "buy_and_hold" t
  = Ok (combine (tl (index data))
          (daily_changes (map Num (tl adj)) (map Num adj))).
Proof.
  intros La Ea Hnz.
  rewrite (buy_and_hold_daily data t adj La Ea Hnz).
  unfold day_over_day. now rewrite daily_changes_num.
Qed.

Lemma buy_and_hold_series data t (adj : list Qc) :
  List.length adj = List.length (index data) ->
  column_of data "Adj Close" t = Some (map Num adj) ->
  Forall (fun a => a <> zero) adj ->
  cumulative_returns data "buy_and_hold" t
  = Ok (combine (tl (index data))
          (prefix_products (of_Z 1)
             (growth_factors
                (daily_changes (map Num (tl adj)) (map Num adj))))).
Proof.
  intros La Ea Hnz. apply cumulative_of_daily.
  - now apply buy_and_hold_changes.
  - now apply daily_changes_num_no_nan.
Qed.

Lemma tl_length {A} (l : list A) :
  List.length (tl l) = (List.length l - 1)%nat.
Proof. destruct l; simpl; lia. Qed.

Lemma day_over_day_length adj :
  List.length (day_over_day adj) = (List.length adj - 1)%nat.
Proof.
  unfold day_over_day. rewrite intraday_ratios_length, tl_length. lia.
Qed.

Lemma buy_and_hold_tame data t :
  tame data "buy_and_hold" (tl (index data)) t.
Proof.
  unfold tame, cumulative_returns, daily_returns.
  cbn [String.eqb Ascii.eqb Bool.eqb]. unfold getitem.
  destruct (column_of data "Adj Close" t) as [va|]; [|exact I].
  cbn [rbind]. intros Hi.
  destruct (index data) as [|d [|d' idx]]; [reflexivity| |discriminate].
  destruct va as [|x va]; [reflexivity|].
  destruct x; reflexivity.
Qed.

Lemma buy_and_hold_regular data t :
  well_formed data = true ->
  column_of data "Adj Close" t = None \/ adj_gap_free data t ->
  regular data "buy_and_hold" (tl (index data)) t.
Proof.
  intros W [H|(adj & Ea & Hnz)]; unfold regular.
  - unfold cumulative_returns, daily_returns.
    cbn [String.eqb Ascii.eqb Bool.eqb]. unfold getitem. rewrite H.
    exact I.
  - pose proof (well_formed_column _ _ _ _ W Ea) as La.
    rewrite length_map in La.
    rewrite (buy_and_hold_series data t adj La Ea Hnz).
    apply s_index_combine.
    rewrite prefix_products_length, growth_factors_length,
      daily_changes_length, !length_map, !tl_length. lia.
Qed.



(** ** A single date *)

Lemma tame_regular_nil data strategy idx t :
  idx = [] -> tame data strategy idx t -> regular data strategy [] t.
Proof.
  intros Hi. unfold tame, regular.
  destruct (cumulative_returns data strategy t) as [s|e]; [|trivial].
  intros H. now rewrite (H Hi).
Qed.

(** X7: on a table with at most one date, close_to_open and buy_and_hold
    return frames without rows: every ticker they keep has an empty
    column. *)
Theorem one_date_gives_no_rows data strategy :
  (List.length (index data) <= 1)%nat ->
  strategy = "close_to_open" \/ strategy = "buy_and_hold" ->
  exists fr log,
    calculate_returns data strategy = (Ok fr, log)
    /\ df_index fr = []
    /\ forall t v, get_column t (df_columns fr) = Some v -> v = [].
Proof.
  intros Hn Hs.
  assert (Hreg : forall t, regular data strategy [] t).
  { intros t. destruct Hs as [-> | ->].
    - apply (tame_regular_nil _ _ (removelast (index data)));
        [|apply close_to_open_tame].
      destruct (index data) as [|d [|d' r]]; try reflexivity.
      simpl in Hn. lia.
    - apply (tame_regular_nil _ _ (tl (index data)));
        [|apply buy_and_hold_tame].
      destruct (index data) as [|d [|d' r]]; try reflexivity.
      simpl in Hn. lia. }
  destruct (loop_regular data strategy [] (tickers_of data) empty_frame)
    as (fr & log & E & Hfr).
  - apply Forall_forall. intros t _. apply Hreg.
  - right. auto.
  - exists fr, log. split; [exact E|].
    assert (Hi : df_index fr = []) by (now destruct Hfr as [->|[-> _]]).
    split; [exact Hi|].
    pose proof (loop_rectangular _ _ _ _ _ _ E eq_refl) as R.
    apply rectangular_forall in R. rewrite Hi in R.
    intros t v Hv.
    induction (df_columns fr) as [|[t' v'] r IH]; simpl in Hv;
      [discriminate|].
    destruct (t' =? t).
    + injection Hv as <-. pose proof (Forall_inv R) as L. simpl in L.
      now destruct v'.
    + apply IH; [exact (Forall_inv_tail R)|exact Hv].
Qed.

Lemma one_date_gives_no_rows_witness :
  exists fr log,
    calculate_returns one_day_X "close_to_open" = (Ok fr, log)
    /\ df_index fr = []
    /\ forall t v, get_column t (df_columns fr) = Some v -> v = [].
Proof.
  apply (one_date_gives_no_rows one_day_X "close_to_open").
  - simpl. lia.
  - now left.
Defined.

(** ** What [main] writes *)

Lemma skip_messages_are_errors data strategy ts :
  forallb is_st_error (flat_map (skip_messages data strategy) ts) = true.
Proof.
  induction ts as [|t ts IH]; [reflexivity|].
  cbn [flat_map]. rewrite forallb_app, IH. unfold skip_messages.
  now destruct (first_missing data strategy t).
Qed.

Lemma plot_outcome o c b start_date end_date k log_scale :
  (exists fig,
     build_figure o c b start_date end_date k log_scale = Ok fig
     /\ plot_investment_value o c b start_date end_date k log_scale
        = (Ok tt, [st_plotly_chart fig]))
  \/ (exists e,
        plot_investment_value o c b start_date end_date k log_scale
        = (Raise e, [])).
Proof.
  unfold plot_investment_value.
  destruct (build_figure o c b start_date end_date k log_scale) as [fig|e].
  - left. exists fig. auto.
  - right. exists e. reflexivity.
Qed.

Lemma run_backtest_on_data yf_download tickers start_date end_date k
  log_scale data :
  yf_download tickers start_date end_date = Ok data ->
  table_empty data = false ->
  exists o c b,
    calculate_returns data "open_to_close"
    = (Ok o, flat_map (skip_messages data "open_to_close") (tickers_of data))
    /\ calculate_returns data "close_to_open"
       = (Ok c, flat_map (skip_messages data "close_to_open") (tickers_of data))
    /\ calculate_returns data "buy_and_hold"
       = (Ok b, flat_map (skip_messages data "buy_and_hold") (tickers_of data))
    /\ forall r l,
         plot_investment_value o c b start_date end_date k log_scale = (r, l) ->
         run_backtest yf_download tickers start_date end_date k log_scale
         = (r, flat_map (skip_messages data "open_to_close") (tickers_of data)
               ++ flat_map (skip_messages data "close_to_open") (tickers_of data)
               ++ flat_map (skip_messages data "buy_and_hold") (tickers_of data)
               ++ l).
Proof.
  intros Hf Hne.
  destruct (calculate_returns_in_order data "open_to_close" eq_refl)
    as (o & Eo & _).
  destruct (calculate_returns_in_order data "close_to_open" eq_refl)
    as (c & Ec & _).
  destruct (calculate_returns_in_order data "buy_and_hold" eq_refl)
    as (b & Eb & _).
  exists o, c, b. split; [exact Eo|]. split; [exact Ec|]. split; [exact Eb|].
  intros r l Ep. unfold run_backtest, fetch_data. rewrite Hf.
  cbn [ui_lift ui_bind]. rewrite Hne.
  rewrite (ui_bind_ok _ _ o _ r
             (flat_map (skip_messages data "close_to_open") (tickers_of data)
              ++ flat_map (skip_messages data "buy_and_hold") (tickers_of data)
              ++ l) Eo).
  - reflexivity.
  - apply (ui_bind_ok _ _ c _ _ _ Ec).
    apply (ui_bind_ok _ _ b _ _ _ Eb). exact Ep.
Qed.

(** X8: whatever the fetch returns, [main] writes a run of error messages
    followed by at most one chart, the chart being the last thing written;
    without the button pressed it writes nothing. *)
Theorem main_writes_errors_then_at_most_one_chart yf_download start_date
  end_date text initial_investment log_scale button :
  exists errs,
    forallb is_st_error errs = true
    /\ (main yf_download start_date end_date text initial_investment
             log_scale button = errs
        \/ exists fig,
             main yf_download start_date end_date text initial_investment
                  log_scale button = errs ++ [st_plotly_chart fig])
    /\ (button = false ->
        main yf_download start_date end_date text initial_investment
             log_scale button = []).
Proof.
  rewrite main_unfold. destruct button.
  2:{ exists []. split; [reflexivity|]. split; [now left|reflexivity]. }
  destruct (yf_download (parse_tickers text) start_date end_date)
    as [data|e] eqn:Ef.
  2:{ exists [st_error (MsgUnexpected e)]. split; [reflexivity|].
      split; [|discriminate]. left.
      unfold run_backtest, fetch_data. now rewrite Ef. }
  destruct (table_empty data) eqn:Ee.
  { exists [st_error MsgNoData]. split; [reflexivity|].
    split; [|discriminate]. left.
    unfold run_backtest, fetch_data. rewrite Ef.
    cbn [ui_lift ui_bind]. now rewrite Ee. }
  destruct (run_backtest_on_data yf_download (parse_tickers text) start_date
              end_date initial_investment log_scale data Ef Ee)
    as (o & c & b & _ & _ & _ & Hrun).
  set (lo := flat_map (skip_messages data "open_to_close") (tickers_of data))
    in *.
  set (lc := flat_map (skip_messages data "close_to_open") (tickers_of data))
    in *.
  set (lb := flat_map (skip_messages data "buy_and_hold") (tickers_of data))
    in *.
  assert (Hl : forallb is_st_error (lo ++ lc ++ lb) = true).
  { unfold lo, lc, lb.
    now rewrite !forallb_app, !skip_messages_are_errors. }
  destruct (plot_outcome o c b start_date end_date initial_investment
              log_scale) as [(fig & _ & Ep)|(e & Ep)].
  - exists (lo ++ lc ++ lb). split; [exact Hl|]. split; [|discriminate].
    right. exists fig. rewrite (Hrun _ _ Ep). cbn [catch_all].
    now rewrite <- !app_assoc.
  - exists ((lo ++ lc ++ lb) ++ [st_error (MsgUnexpected e)]).
    split; [now rewrite forallb_app, Hl|]. split; [|discriminate].
    left. rewrite (Hrun _ _ Ep). cbn [catch_all].
    now rewrite !app_nil_r, <- !app_assoc.
Qed.

Lemma main_writes_errors_then_at_most_one_chart_witness :
  main (fun _ _ _ => Ok two_days_X) 1%Z 3%Z "x" (of_Z 100) false false = [].
Proof.
  destruct (main_writes_errors_then_at_most_one_chart
              (fun _ _ _ => Ok two_days_X) 1%Z 3%Z "x" (of_Z 100) false false)
    as (errs & _ & _ & H).
  apply H. reflexivity.
Defined.

(** X9: when the fetch itself raises, [main] writes that one error and
    nothing else: no strategy is computed and no chart drawn. *)
Theorem failed_fetch_is_reported yf_download start_date end_date text
  initial_investment log_scale e :
  yf_download (parse_tickers text) start_date end_date = Raise e ->
  main yf_download start_date end_date text initial_investment log_scale true
  = [st_error (MsgUnexpected e)].
Proof.
  intros Hf. rewrite main_unfold. unfold run_backtest, fetch_data.
  now rewrite Hf.
Qed.

Lemma failed_fetch_is_reported_witness :
  main (fun _ _ _ => Raise (OtherError "No data fetched")) 1%Z 3%Z "x"
       (of_Z 100) false true
  = [st_error (MsgUnexpected (OtherError "No data fetched"))].
Proof.
  apply (failed_fetch_is_reported
           (fun _ _ _ => Raise (OtherError "No data fetched"))).
  reflexivity.
Defined.

(** ** When the chart is drawn *)

Lemma open_to_close_index data t fr log :
  well_formed data = true ->
  In t (tickers_of data) ->
  has_required data "open_to_close" t = true ->
  calculate_returns data "open_to_close" = (Ok fr, log) ->
  df_index fr = index data.
Proof.
  intros W Hin Hreq E.
  pose proof (cumulative_returns_outcome data "open_to_close" t eq_refl) as Ho.
  unfold has_required in Hreq.
  destruct (first_missing data "open_to_close" t); [discriminate|].
  destruct Ho as [s Es].
  pose proof (open_to_close_regular data t W) as Hreg.
  unfold regular in Hreg. rewrite Es in Hreg.
  destruct (tickers_split data t Hin) as (pre & post & Et & _ & Hpost).
  destruct (loop_column data "open_to_close" (index data) pre t post s)
    as (fr2 & log2 & E2 & Hi & _); try assumption.
  - apply Forall_forall. intros x _. now apply open_to_close_regular.
  - apply Forall_forall. intros x _. apply regular_tame.
    now apply open_to_close_regular.
  - unfold calculate_returns in E. rewrite Et in E. congruence.
Qed.

Lemma flat_map_length_3 {A B} (f : A -> list B) l :
  (forall x, List.length (f x) = 3%nat) ->
  List.length (flat_map f l) = (3 * List.length l)%nat.
Proof.
  intros H. induction l as [|x l IH]; [reflexivity|].
  cbn [flat_map]. rewrite length_app, H, IH. simpl. lia.
Qed.

Lemma table_not_empty data t :
  index data <> [] -> In t (tickers_of data) -> table_empty data = false.
Proof.
  intros Hi Ht. unfold table_empty.
  destruct (index data); [congruence|].
  unfold tickers_of in Ht. destruct (columns data); [destruct Ht|reflexivity].
Qed.

(** X10: on a well-formed table with at least one date, where some ticker
    has Open and Close and every such ticker has its Adj Close as well,
    [main] ends by drawing the chart: three lines per ticker that has Open
    and Close plus the reference line, after the messages for the skipped
    tickers. *)
Theorem complete_tickers_are_drawn yf_download start_date end_date text
  initial_investment log_scale data :
  yf_download (parse_tickers text) start_date end_date = Ok data ->
  well_formed data = true ->
  index data <> [] ->
  (exists t, In t (tickers_of data)
             /\ has_required data "open_to_close" t = true) ->
  (forall t, In t (tickers_of data) ->
             has_required data "open_to_close" t = true ->
             has_required data "buy_and_hold" t = true) ->
  exists errs fig,
    main yf_download start_date end_date text initial_investment log_scale
         true
    = errs ++ [st_plotly_chart fig]
    /\ forallb is_st_error errs = true
    /\ List.length (traces fig)
       = (3 * List.length (filter (has_required data "open_to_close")
                                  (tickers_of data)) + 1)%nat.
Proof.
  intros Hf W Hi (t & Hin & Hreq) Hall.
  pose proof (table_not_empty data t Hi Hin) as Hne.
  destruct (run_backtest_on_data yf_download (parse_tickers text) start_date
              end_date initial_investment log_scale data Hf Hne)
    as (o & c & b & Eo & Ec & Eb & Hrun).
  destruct (calculate_returns_in_order data "open_to_close" eq_refl)
    as (o' & Eo' & Hto).
  destruct (calculate_returns_in_order data "close_to_open" eq_refl)
    as (c' & Ec' & Htc).
  destruct (calculate_returns_in_order data "buy_and_hold" eq_refl)
    as (b' & Eb' & Htb).
  assert (o' = o) by congruence. assert (c' = c) by congruence.
  assert (b' = b) by congruence. subst o' c' b'.
  pose proof (open_to_close_index data t o _ W Hin Hreq Eo) as Hio.
  destruct (plot_loop_complete o c b initial_investment (frame_tickers o)
              [] []) as [av Ep].
  { intros x Hx. split; [exact Hx|].
    rewrite Hto in Hx. apply filter_In in Hx. destruct Hx as [Hx Hrx].
    split.
    - rewrite Htc. apply filter_In. split; [exact Hx|].
      now rewrite <- has_required_same.
    - rewrite Htb. apply filter_In. split; [exact Hx|]. now apply Hall. }
  assert (Hfig : exists fig,
             build_figure o c b start_date end_date initial_investment
                          log_scale = Ok fig
             /\ traces fig
                = flat_map (dollar_traces o c b initial_investment)
                           (frame_tickers o)
                  ++ [reference_line o initial_investment]).
  { unfold build_figure. rewrite Ep. cbn [rbind app fst snd].
    unfold reference_line. rewrite Hio.
    destruct (index data) as [|d r]; [congruence|].
    cbn [index_first index_last rbind].
    destruct log_scale.
    - destruct (log_range_total av initial_investment) as [rg Er].
      rewrite Er. cbn [rbind]. eexists. split; reflexivity.
    - eexists. split; reflexivity. }
  destruct Hfig as (fig & Ebf & Htr).
  exists (flat_map (skip_messages data "open_to_close") (tickers_of data)
          ++ flat_map (skip_messages data "close_to_open") (tickers_of data)
          ++ flat_map (skip_messages data "buy_and_hold") (tickers_of data)),
    fig.
  split; [|split].
  - rewrite main_unfold.
    rewrite (Hrun (Ok tt) [st_plotly_chart fig]).
    + cbn [catch_all]. now rewrite <- !app_assoc.
    + unfold plot_investment_value. now rewrite Ebf.
  - now rewrite !forallb_app, !skip_messages_are_errors.
  - rewrite Htr, length_app, flat_map_length_3 by reflexivity.
    now rewrite Hto.
Qed.

Lemma complete_tickers_are_drawn_witness :
  exists errs fig,
    main (fun _ _ _ => Ok no_open_B) 1%Z 3%Z "a,b" (of_Z 100) true true
    = errs ++ [st_plotly_chart fig]
    /\ forallb is_st_error errs = true
    /\ List.length (traces fig)
       = (3 * List.length (filter (has_required no_open_B "open_to_close")
                                  (tickers_of no_open_B)) + 1)%nat.
Proof.
  apply (complete_tickers_are_drawn (fun _ _ _ => Ok no_open_B) 1%Z 3%Z
           "a,b" (of_Z 100) true no_open_B).
  - reflexivity.
  - reflexivity.
  - discriminate.
  - exists "A". split; [now left|reflexivity].
  - intros t [<-|[<-|[]]]; [reflexivity|discriminate].
Defined.

(** X11: when the table has rows and columns but no ticker has both Open
    and Close, the open-to-close frame has no date, the renderer's
    reference line fails with IndexError, and [main] ends with that error
    after the skip messages, without a chart. *)
Theorem no_open_close_pair_ends_in_index_error yf_download start_date
  end_date text initial_investment log_scale data :
  yf_download (parse_tickers text) start_date end_date = Ok data ->
  table_empty data = false ->
  (forall t, In t (tickers_of data) ->
             has_required data "open_to_close" t = false) ->
  main yf_download start_date end_date text initial_investment log_scale true
  = flat_map (skip_messages data "open_to_close") (tickers_of data)
    ++ flat_map (skip_messages data "close_to_open") (tickers_of data)
    ++ flat_map (skip_messages data "buy_and_hold") (tickers_of data)
    ++ [st_error (MsgUnexpected IndexError)].
Proof.
  intros Hf Hne Hnone.
  destruct (run_backtest_on_data yf_download (parse_tickers text) start_date
              end_date initial_investment log_scale data Hf Hne)
    as (o & c & b & Eo & _ & _ & Hrun).
  destruct (loop_all_skipped data "open_to_close" (tickers_of data)
              empty_frame) as [log E'].
  { now apply Forall_forall. }
  { reflexivity. }
  assert (o = empty_frame) by (unfold calculate_returns in Eo; congruence).
  subst o. rewrite main_unfold.
  rewrite (Hrun (Raise IndexError) []) by reflexivity.
  cbn [catch_all]. now rewrite !app_nil_r, <- !app_assoc.
Qed.

Lemma no_open_close_pair_ends_in_index_error_witness :
  main (fun _ _ _ => Ok (mkTable [1]%Z [(("Close", "X"), [of_Z 10])]))
       1%Z 3%Z "x" (of_Z 100) false true
  = flat_map (skip_messages (mkTable [1]%Z [(("Close", "X"), [of_Z 10])])
                            "open_to_close")
             (tickers_of (mkTable [1]%Z [(("Close", "X"), [of_Z 10])]))
    ++ flat_map (skip_messages (mkTable [1]%Z [(("Close", "X"), [of_Z 10])])
                               "close_to_open")
                (tickers_of (mkTable [1]%Z [(("Close", "X"), [of_Z 10])]))
    ++ flat_map (skip_messages (mkTable [1]%Z [(("Close", "X"), [of_Z 10])])
                               "buy_and_hold")
                (tickers_of (mkTable [1]%Z [(("Close", "X"), [of_Z 10])]))
    ++ [st_error (MsgUnexpected IndexError)].
Proof.
  apply (no_open_close_pair_ends_in_index_error
           (fun _ _ _ => Ok (mkTable [1]%Z [(("Close", "X"), [of_Z 10])]))).
  - reflexivity.
  - reflexivity.
  - intros t [<-|[]]. reflexivity.
Defined.

(** ** The ticker box, piece by piece *)

Lemma split_comma_join text : join_comma (split_comma text) = text.
Proof.
  induction text as [|c r IH]; [reflexivity|].
  cbn [split_comma]. destruct (is_comma c) eqn:E.
  - unfold is_comma in E. apply Ascii.eqb_eq in E. subst c.
    pose proof (split_comma_nonempty r) as Hne.
    destruct (split_comma r) as [|w ws]; [congruence|].
    change (join_comma (EmptyString :: w :: ws))
      with (String ","%char (join_comma (w :: ws))).
    now rewrite IH.
  - pose proof (split_comma_nonempty r) as Hne.
    destruct (split_comma r) as [|w ws]; [congruence|].
    destruct ws as [|w' ws'].
    + simpl in *. now rewrite IH.
    + change (join_comma (String c w :: w' :: ws'))
        with (String c (w ++ String ","%char (join_comma (w' :: ws')))%string).
      change (join_comma (w :: w' :: ws'))
        with (w ++ String ","%char (join_comma (w' :: ws')))%string in IH.
      now rewrite IH.
Qed.

Lemma split_comma_count text :
  List.length (split_comma text) = S (count_commas text).
Proof.
  induction text as [|c r IH]; [reflexivity|].
  cbn [split_comma count_commas]. destruct (is_comma c).
  - cbn [List.length]. rewrite IH. reflexivity.
  - pose proof (split_comma_nonempty r) as Hne.
    destruct (split_comma r) as [|w ws]; [congruence|].
    cbn [List.length] in *. rewrite IH. reflexivity.
Qed.

Lemma split_comma_pieces p text :
  string_forallb p text = true ->
  Forall (fun w => string_forallb (fun c => negb (is_comma c) && p c) w = true)
         (split_comma text).
Proof.
  induction text as [|c r IH]; intros H.
  - repeat constructor.
  - cbn [string_forallb] in H. apply andb_prop in H. destruct H as [Hc Hr].
    specialize (IH Hr). cbn [split_comma]. destruct (is_comma c) eqn:E.
    + constructor; [reflexivity|exact IH].
    + destruct (split_comma r) as [|w ws].
      * constructor; [|constructor]. cbn [string_forallb].
        now rewrite E, Hc.
      * constructor; [|exact (Forall_inv_tail IH)].
        cbn [string_forallb]. rewrite E, Hc. exact (Forall_inv IH).
Qed.

(** X12: splitting on commas loses nothing: joining the pieces with commas
    gives the text back, there is one piece more than there are commas, and
    no piece contains a comma. *)
Theorem split_on_commas_round_trip text :
  join_comma (split_comma text) = text
  /\ List.length (split_comma text) = S (count_commas text)
  /\ Forall (fun w => count_commas w = 0%nat) (split_comma text).
Proof.
  split; [apply split_comma_join|]. split; [apply split_comma_count|].
  pose proof (split_comma_pieces (fun _ => true) text) as H.
  eapply Forall_impl; [|apply H].
  - intros w. clear. induction w as [|c r IH]; [reflexivity|].
    cbn [string_forallb count_commas]. intros Hw.
    apply andb_prop in Hw. destruct Hw as [Hc Hr].
    destruct (is_comma c); [discriminate Hc|]. now apply IH.
  - clear. induction text as [|c r IH]; [reflexivity|].
    cbn [string_forallb]. exact IH.
Qed.

Lemma upper_ascii_not_lower c : is_lower (upper_ascii c) = false.
Proof.
  destruct c as [[] [] [] [] [] [] [] []]; reflexivity.
Qed.

Lemma upper_no_lower text :
  string_forallb (fun c => negb (is_lower c)) (upper text) = true.
Proof.
  induction text as [|c r IH]; [reflexivity|].
  cbn [upper string_forallb]. now rewrite upper_ascii_not_lower, IH.
Qed.

Lemma lstrip_forallb p w :
  string_forallb p w = true -> string_forallb p (lstrip w) = true.
Proof.
  induction w as [|c r IH]; [auto|].
  intros H. cbn [lstrip]. destruct (is_space c); [|exact H].
  cbn [string_forallb] in H. apply andb_prop in H. now apply IH.
Qed.

Lemma rstrip_forallb p w :
  string_forallb p w = true -> string_forallb p (rstrip w) = true.
Proof.
  induction w as [|c r IH]; [auto|].
  intros H. cbn [string_forallb] in H. apply andb_prop in H.
  destruct H as [Hc Hr]. specialize (IH Hr). cbn [rstrip].
  destruct (rstrip r) as [|c' r'].
  - destruct (is_space c); [reflexivity|].
    cbn [string_forallb]. now rewrite Hc.
  - cbn [string_forallb] in *. now rewrite Hc.
Qed.

Lemma lstrip_start w : starts_with_space (lstrip w) = false.
Proof.
  induction w as [|c r IH]; [reflexivity|].
  cbn [lstrip]. destruct (is_space c) eqn:E; [exact IH|].
  cbn [starts_with_space]. exact E.
Qed.

Lemma rstrip_start w :
  starts_with_space w = false -> starts_with_space (rstrip w) = false.
Proof.
  destruct w as [|c r]; [auto|].
  cbn [starts_with_space rstrip]. intros E.
  destruct (rstrip r); [now rewrite E|exact E].
Qed.

Lemma rstrip_end w : ends_with_space (rstrip w) = false.
Proof.
  induction w as [|c r IH]; [reflexivity|].
  cbn [rstrip]. destruct (rstrip r) as [|c' r'].
  - destruct (is_space c) eqn:E; [reflexivity|].
    cbn [ends_with_space]. exact E.
  - change (ends_with_space (String c (String c' r')))
      with (ends_with_space (String c' r')).
    exact IH.
Qed.

Lemma strip_clean w :
  string_forallb (fun c => negb (is_comma c) && negb (is_lower c)) w = true ->
  clean_symbol (strip w) = true.
Proof.
  intros H. unfold clean_symbol, strip.
  rewrite rstrip_forallb by (now apply lstrip_forallb).
  rewrite rstrip_start by apply lstrip_start.
  now rewrite rstrip_end.
Qed.

(** X13: whatever is typed in the ticker box, [main] works with at least
    one and at most five symbols, and every symbol is free of commas, of
    lower-case ASCII letters and of white space at its two ends. *)
Theorem parsed_symbols_are_clean text :
  (1 <= List.length (parse_tickers text) <= 5)%nat
  /\ Forall (fun w => clean_symbol w = true) (parse_tickers text).
Proof.
  split.
  - pose proof (parse_tickers_nonempty text) as Hne.
    split.
    + destruct (parse_tickers text); [congruence|simpl; lia].
    + unfold parse_tickers. apply firstn_le_length.
  - unfold parse_tickers. apply Forall_firstn_keeps, Forall_map.
    eapply Forall_impl;
      [|apply (split_comma_pieces (fun c => negb (is_lower c)));
        apply upper_no_lower].
    intros w Hw. now apply strip_clean.
Qed.

(** ** The logarithmic axis, further *)

Lemma fold_fmax_nan_acc l : fold_left fmax l NaN = NaN.
Proof. induction l as [|x l IH]; [reflexivity|exact IH]. Qed.

Lemma fmax_nan_r x : fmax x NaN = NaN.
Proof. unfold fmax. cbn [isnan]. now rewrite orb_true_r. Qed.

Lemma fold_fmax_nan l : forall x,
  In NaN (x :: l) -> fold_left fmax l x = NaN.
Proof.
  induction l as [|y l IH]; intros x [Hx|Hin].
  - now subst.
  - destruct Hin.
  - subst x. apply fold_fmax_nan_acc.
  - cbn [fold_left]. destruct Hin as [Hy|Hin].
    + subst y. rewrite fmax_nan_r. apply fold_fmax_nan_acc.
    + apply IH. now right.
Qed.

Lemma positive_values_no_nan l : ~ In NaN (positive_values l).
Proof.
  unfold positive_values. rewrite filter_In. intros [_ H]. discriminate H.
Qed.

(** X14: one NaN among the drawn values (or as the investment) decides the
    whole log range: the maximum is NaN, so is the padding, the guard on
    the lower end fails, and the range is [log10(0.1), log10(NaN)]
    whatever the other values are. *)
Theorem nan_value_spoils_log_range all_values initial_investment :
  In NaN (all_values ++ [initial_investment]) ->
  log_range all_values initial_investment
  = Ok (log10 (of_frac 1 10), log10 NaN).
Proof.
  intros Hin. unfold log_range.
  assert (Hmax : np_max (all_values ++ [initial_investment]) = Ok NaN).
  { destruct (all_values ++ [initial_investment]) as [|x l];
      [destruct Hin|].
    cbn [np_max]. now rewrite fold_fmax_nan. }
  rewrite Hmax.
  assert (Hmin : exists m,
             match positive_values (all_values ++ [initial_investment]) with
             | [] => Ok (of_frac 1 10)
             | _ :: _ =>
                 np_min (positive_values (all_values ++ [initial_investment]))
             end = Ok m).
  { destruct (positive_values (all_values ++ [initial_investment]));
      cbn [np_min]; eauto. }
  destruct Hmin as [m Em].
  destruct (positive_values (all_values ++ [initial_investment])) eqn:Ep;
    rewrite Em; cbn [rbind]; destruct m; reflexivity.
Qed.

Lemma nan_value_spoils_log_range_witness :
  log_range [of_Z 100; NaN; of_Z 120] (of_Z 100)
  = Ok (log10 (of_frac 1 10), log10 NaN).
Proof.
  apply (nan_value_spoils_log_range [of_Z 100; NaN; of_Z 120] (of_Z 100)).
  simpl. auto.
Defined.

Lemma log_range_finite (values : list Qc) (k : Qc) :
  (zero < k)%Qc ->
  exists min_val max_val : Qc,
    In max_val (values ++ [k])
    /\ Forall (fun y => (y <= max_val)%Qc) (values ++ [k])
    /\ In min_val (values ++ [k]) /\ (zero < min_val)%Qc
    /\ log_range (map Num values) (Num k)
       = Ok (if Qc_ltb zero (min_val - Q2Qc (1 # 10) * (max_val - min_val))
             then log10 (Num (min_val - Q2Qc (1 # 10) * (max_val - min_val)))
             else log10 (of_frac 1 10),
             log10 (Num (max_val + Q2Qc (1 # 10) * (max_val - min_val)))).
Proof.
  intros Hk. unfold log_range.
  change (map Num values ++ [Num k]) with (map Num values ++ map Num [k]).
  rewrite <- map_app. set (all := values ++ [k]).
  assert (Hkin : In k all) by (unfold all; apply in_app_iff; right; now left).
  rewrite positive_values_num.
  assert (Hmax : exists mx, np_max (map Num all) = Ok (Num mx)
                   /\ In mx all /\ Forall (fun y => (y <= mx)%Qc) all).
  { destruct all as [|x l]; [destruct Hkin|].
    destruct (fold_fmax_num l x) as (m & Em & Hin & Hall).
    exists m. cbn [map np_max]. rewrite Em. auto. }
  destruct Hmax as (mx & Emx & Hinx & Hallx).
  assert (Hsub : forall y, In y (filter (Qc_ltb zero) all)
                           <-> In y all /\ Qc_ltb zero y = true).
  { intros y. apply filter_In. }
  destruct (filter (Qc_ltb zero) all) as [|p ps] eqn:Ef.
  - exfalso. apply (proj2 (Hsub k)). split; [exact Hkin|].
    now apply Qc_ltb_lt.
  - destruct (fold_fmin_num ps p) as (mn & Emn & Hinn & _).
    apply Hsub in Hinn. destruct Hinn as [Hin Hpos].
    exists mn, mx. repeat split; try assumption.
    + now apply Qc_ltb_lt.
    + cbn [map np_min rbind]. rewrite Emn, Emx. reflexivity.
Qed.

Lemma Qc_ltb_ge (a b : Qc) : (b <= a)%Qc -> Qc_ltb a b = false.
Proof.
  intros H. destruct (Qc_ltb a b) eqn:E; [|reflexivity].
  apply Qc_ltb_lt in E. now apply Qcle_not_lt in H.
Qed.

(** X15: with finite drawn values and a positive investment, as the input
    widget guarantees, the log range is [log10 lo, log10 hi] with lo
    greater than zero and hi a number, not NaN, that no drawn value and
    not the investment exceeds: the axis reaches the top of every line and
    its lower end is the logarithm of a positive number. *)
Theorem log_range_covers_the_top (values : list Qc) (k : Qc) :
  (zero < k)%Qc ->
  exists lo hi : fl,
    log_range (map Num values) (Num k) = Ok (log10 lo, log10 hi)
    /\ gtb lo (of_Z 0) = true
    /\ isnan hi = false
    /\ Forall (fun y => ltb hi (Num y) = false) (values ++ [k]).
Proof.
  intros Hk.
  destruct (log_range_finite values k Hk)
    as (mn & mx & Hinx & Hallx & Hinn & Hpos & E).
  set (pad := (Q2Qc (1 # 10) * (mx - mn))%Qc) in *.
  assert (Hpad : (zero <= pad)%Qc).
  { assert (Hd : (zero <= mx - mn)%Qc).
    { rewrite Forall_forall in Hallx. specialize (Hallx mn Hinn).
      change zero with 0%Qc. unfold Qcminus.
      now apply -> Qcle_minus_iff. }
    assert (Ht : (zero <= Q2Qc (1 # 10))%Qc) by (now vm_compute).
    pose proof (Qcmult_le_compat_r _ _ _ Ht Hd) as H.
    unfold pad. replace zero with (zero * (mx - mn))%Qc at 1; [exact H|].
    change zero with 0%Qc. ring. }
  exists (Num (if Qc_ltb zero (mn - pad) then (mn - pad)%Qc
               else Q2Qc (1 # 10))),
    (Num (mx + pad)%Qc).
  split; [|split; [|split]].
  - rewrite E. now destruct (Qc_ltb zero (mn - pad)).
  - unfold gtb, of_Z. cbn [ltb]. change (Q2Qc (inject_Z 0)) with zero.
    destruct (Qc_ltb zero (mn - pad)) eqn:El; [exact El|reflexivity].
  - reflexivity.
  - eapply Forall_impl; [|exact Hallx]. intros y Hy. cbn [ltb].
    apply Qc_ltb_ge.
    apply (Qcle_trans _ mx); [exact Hy|].
    replace mx with (mx + zero)%Qc at 1
      by (change zero with 0%Qc; ring).
    apply Qcplus_le_compat; [apply Qcle_refl|exact Hpad].
Qed.

Lemma log_range_covers_the_top_witness :
  exists lo hi : fl,
    log_range (map Num [Q2Qc 50; Q2Qc 150]) (Num (Q2Qc 100))
    = Ok (log10 lo, log10 hi)
    /\ gtb lo (of_Z 0) = true
    /\ isnan hi = false
    /\ Forall (fun y => ltb hi (Num y) = false)
              ([Q2Qc 50; Q2Qc 150] ++ [Q2Qc 100]).
Proof.
  apply (log_range_covers_the_top [Q2Qc 50; Q2Qc 150] (Q2Qc 100)).
  now vm_compute.
Defined.

(** ** Labels of the series *)

Lemma distinct_dates_NoDup l : distinct_dates l = true -> NoDup l.
Proof.
  induction l as [|d r IH]; intros H; constructor; simpl in H;
    apply andb_prop in H; destruct H as [Hd Hr].
  - intros Hin. apply negb_true_iff in Hd.
    assert (E : existsb (Z.eqb d) r = true).
    { apply existsb_exists. exists d. split; [exact Hin|apply Z.eqb_refl]. }
    congruence.
  - now apply IH.
Qed.

Lemma well_formed_dates data :
  well_formed data = true -> NoDup (index data).
Proof.
  unfold well_formed. intros H.
  apply andb_prop in H. destruct H as [H _].
  apply andb_prop in H. destruct H as [H _].
  now apply distinct_dates_NoDup.
Qed.

Lemma s_index_dropna_in s d : In d (s_index (dropna s)) -> In d (s_index s).
Proof.
  unfold s_index, dropna. rewrite !in_map_iff.
  intros (p & E & Hp). apply filter_In in Hp. exists p. tauto.
Qed.

Lemma s_index_dropna_nodup s :
  NoDup (s_index s) -> NoDup (s_index (dropna s)).
Proof.
  induction s as [|[d v] r IH]; intros H; [constructor|].
  inversion H as [|? ? Hnin Hr]; subst.
  unfold dropna. cbn [filter snd].
  destruct (negb (isnan v)).
  - cbn [s_index map fst]. constructor.
    + intros Hin. apply Hnin. now apply s_index_dropna_in.
    + now apply IH.
  - now apply IH.
Qed.

Lemma shift_values_up_length vs :
  List.length (shift_values_up vs) = List.length vs.
Proof.
  destruct vs as [|x r]; [reflexivity|].
  cbn [shift_values_up]. rewrite length_app. simpl. lia.
Qed.

Lemma s_index_shift_up s : s_index (shift_up s) = s_index s.
Proof.
  unfold shift_up. apply s_index_combine.
  rewrite shift_values_up_length. unfold s_index, s_values.
  now rewrite !length_map.
Qed.

Lemma s_index_ffill last s : s_index (ffill_from last s) = s_index s.
Proof.
  revert last. induction s as [|[d v] r IH]; intros last; [reflexivity|].
  cbn [ffill_from s_index map fst]. f_equal. apply IH.
Qed.

Lemma s_index_shift_down s : s_index (shift_down s) = s_index s.
Proof.
  unfold shift_down. destruct s as [|p r]; [reflexivity|].
  apply s_index_combine. cbn [List.length].
  rewrite removelast_length. unfold s_index, s_values.
  rewrite !length_map. simpl. lia.
Qed.

Lemma series_length (s : Series) : List.length s = List.length (s_index s).
Proof. unfold s_index. now rewrite length_map. Qed.

Lemma cumulative_returns_nodup data strategy t s :
  well_formed data = true ->
  cumulative_returns data strategy t = Ok s -> NoDup (s_index s).
Proof.
  intros W. pose proof (well_formed_dates data W) as Hnd.
  unfold cumulative_returns, daily_returns, getitem.
  destruct (strategy =? "open_to_close").
  { destruct (column_of data "Close" t) as [vc|] eqn:Ec; [|discriminate].
    destruct (column_of data "Open" t) as [vo|] eqn:Eo; [|discriminate].
    cbn [rbind]. intros [= <-].
    pose proof (well_formed_column _ _ _ _ W Ec) as Lc.
    pose proof (well_formed_column _ _ _ _ W Eo) as Lo.
    rewrite s_index_cumprod, !s_index_smap, s_index_zip_with.
    - now rewrite s_index_combine.
    - rewrite !combine_length_eq; auto. }
  destruct (strategy =? "close_to_open").
  { destruct (column_of data "Open" t) as [vo|] eqn:Eo; [|discriminate].
    destruct (column_of data "Close" t) as [vc|] eqn:Ec; [|discriminate].
    cbn [rbind]. intros [= <-].
    pose proof (well_formed_column _ _ _ _ W Ec) as Lc.
    pose proof (well_formed_column _ _ _ _ W Eo) as Lo.
    rewrite s_index_cumprod, s_index_smap.
    apply s_index_dropna_nodup.
    rewrite s_index_smap, s_index_zip_with.
    - now rewrite s_index_shift_up, s_index_combine.
    - rewrite (series_length (shift_up _)), s_index_shift_up,
        <- series_length, !combine_length_eq; auto. }
  destruct (strategy =? "buy_and_hold"); [|discriminate].
  destruct (column_of data "Adj Close" t) as [va|] eqn:Ea; [|discriminate].
  cbn [rbind]. intros [= <-].
  pose proof (well_formed_column _ _ _ _ W Ea) as La.
  rewrite s_index_cumprod, s_index_smap.
  apply s_index_dropna_nodup. unfold pct_change.
  rewrite s_index_smap, s_index_zip_with.
  - now rewrite s_index_ffill, s_index_combine.
  - rewrite (series_length (shift_down _)), s_index_shift_down.
    apply series_length.
Qed.

Lemma value_at_head d v r : value_at ((d, v) :: r) d = v.
Proof. unfold value_at. cbn [find fst]. now rewrite Z.eqb_refl. Qed.

Lemma value_at_tail d v r d' :
  d' <> d -> value_at ((d, v) :: r) d' = value_at r d'.
Proof.
  intros H. unfold value_at. cbn [find fst].
  destruct (Z.eqb d d') eqn:E; [|reflexivity].
  apply Z.eqb_eq in E. congruence.
Qed.

(** Re-indexing a series on its own labels changes nothing. *)
Lemma reindex_self s : NoDup (s_index s) -> reindex s (s_index s) = s_values s.
Proof.
  induction s as [|[d v] r IH]; intros H; [reflexivity|].
  inversion H as [|? ? Hnin Hr]; subst. specialize (IH Hr).
  unfold reindex, s_index, s_values in *. cbn [map fst snd].
  rewrite value_at_head. f_equal.
  rewrite <- IH. apply map_ext_in.
  intros d' Hd'. apply value_at_tail. intros ->. contradiction.
Qed.

Lemma reindex_nil idx : reindex [] idx = map (fun _ => NaN) idx.
Proof. reflexivity. Qed.

(** ** Alignment on the first ticker's dates *)

Lemma set_column_Forall (P : list fl -> Prop) t v cols :
  P v -> Forall (fun c : ticker * list fl => P (snd c)) cols ->
  Forall (fun c : ticker * list fl => P (snd c)) (set_column t v cols).
Proof.
  intros Hv. induction cols as [|[t' v'] r IH]; intros H; simpl.
  - constructor; [exact Hv|constructor].
  - destruct (t' =? t); constructor.
    + exact Hv.
    + exact (Forall_inv_tail H).
    + exact (Forall_inv H).
    + apply IH. exact (Forall_inv_tail H).
Qed.

Lemma setitem_empty_series fr t :
  df_index fr = [] ->
  setitem fr t [] = mkFrame [] (set_column t [] (df_columns fr)).
Proof.
  intros H. unfold setitem, ensure_valid_index, reindex_for_setitem.
  rewrite H. cbn [df_index df_columns]. rewrite H. reflexivity.
Qed.

Lemma loop_empty_prefix data strategy ts : forall fr,
  Forall (skipped_or_empty data strategy) ts ->
  df_index fr = [] ->
  Forall (fun c : ticker * list fl => snd c = []) (df_columns fr) ->
  exists fr' log,
    calculate_returns_loop data strategy ts fr = (Ok fr', log)
    /\ df_index fr' = []
    /\ Forall (fun c : ticker * list fl => snd c = []) (df_columns fr')
    /\ forall t, In t ts -> cumulative_returns data strategy t = Ok [] ->
                 In t (frame_tickers fr').
Proof.
  induction ts as [|t0 ts IH]; intros fr Hpre Hi Hc.
  - exists fr, []. repeat split; auto. intros t [].
  - pose proof (Forall_inv Hpre) as H0.
    pose proof (Forall_inv_tail Hpre) as Hr.
    cbn [calculate_returns_loop]. unfold skipped_or_empty in H0.
    destruct (cumulative_returns data strategy t0) as [s|[k|m| |m]] eqn:E0;
      try contradiction.
    + subst s. rewrite (setitem_empty_series fr t0 Hi).
      destruct (IH (mkFrame [] (set_column t0 [] (df_columns fr))) Hr eq_refl)
        as (fr' & log & E & Hi' & Hc' & Hin).
      { cbn [df_columns].
        now apply (set_column_Forall (fun v => v = [])). }
      exists fr', log. repeat split; try assumption.
      intros t [->|Ht] Hs; [|now apply Hin].
      destruct (in_dec string_dec t ts) as [Hts|Hts]; [now apply Hin|].
      destruct (loop_members data strategy ts
                  (mkFrame [] (set_column t [] (df_columns fr))))
        as (fr2 & log2 & E2 & Hm & _).
      { eapply Forall_impl; [|exact Hr]. intros x Hx.
        unfold skipped_or_empty, recoverable in *.
        destruct (cumulative_returns data strategy x) as [?|[]]; auto. }
      assert (fr2 = fr') by congruence. subst fr2.
      apply Hm. left. unfold frame_tickers. cbn [df_columns].
      apply set_column_tickers. now left.
    + destruct (IH fr Hr Hi Hc) as (fr' & log & E & Hi' & Hc' & Hin).
      exists fr', (st_error (MsgCalcError t0 (KeyError k)) :: log).
      split; [unfold ui_emit; simpl; now rewrite E|].
      repeat split; try assumption.
      intros t [->|Ht] Hs; [congruence|now apply Hin].
Qed.

Lemma get_column_padded t idx cols :
  In t (map fst cols) ->
  get_column t (map (fun c : ticker * list fl =>
                       (fst c, map (fun _ : date => NaN) idx)) cols)
  = Some (map (fun _ => NaN) idx).
Proof.
  induction cols as [|[t' v'] r IH]; intros H; [destruct H|].
  cbn [map fst get_column]. destruct (t' =? t) eqn:E; [reflexivity|].
  apply IH. destruct H as [H|H]; [|exact H].
  simpl in H. subst t'. now rewrite String.eqb_refl in E.
Qed.

Lemma setitem_first fr t s :
  df_index fr = [] -> s <> [] -> NoDup (s_index s) ->
  df_index (setitem fr t s) = s_index s
  /\ get_column t (df_columns (setitem fr t s))
     = Some (reindex s (s_index s))
  /\ forall t', t' <> t -> In t' (frame_tickers fr) ->
       get_column t' (df_columns (setitem fr t s))
       = Some (reindex [] (s_index s)).
Proof.
  intros Hi Hs Hnd. destruct s as [|p s']; [congruence|].
  unfold setitem, ensure_valid_index. rewrite Hi.
  cbn [df_index df_columns]. unfold reindex_for_setitem.
  cbn [df_index]. rewrite index_eqb_refl.
  split; [reflexivity|]. split.
  - rewrite get_set_column_same. now rewrite reindex_self.
  - intros t' Hne Hin. rewrite get_set_column_other by assumption.
    rewrite reindex_nil. now apply get_column_padded.
Qed.

Lemma setitem_aligned idx fr t s :
  df_index fr = idx -> idx <> [] -> NoDup (s_index s) ->
  df_index (setitem fr t s) = idx
  /\ get_column t (df_columns (setitem fr t s)) = Some (reindex s idx)
  /\ forall t', t' <> t ->
       get_column t' (df_columns (setitem fr t s))
       = get_column t' (df_columns fr).
Proof.
  intros Hi Hne Hnd.
  assert (E : ensure_valid_index fr s = fr).
  { unfold ensure_valid_index. rewrite Hi.
    destruct idx; [congruence|reflexivity]. }
  unfold setitem. rewrite E. cbn [df_index df_columns].
  split; [exact Hi|]. split.
  - rewrite get_set_column_same. f_equal.
    unfold reindex_for_setitem. rewrite Hi.
    destruct (index_eqb (s_index s) idx) eqn:Eq.
    + apply index_eqb_eq in Eq. rewrite <- Eq. symmetry.
      now apply reindex_self.
    + destruct idx; [congruence|reflexivity].
  - intros t' Hne'. now apply get_set_column_other.
Qed.

Lemma loop_aligned data strategy idx ts : forall fr,
  well_formed data = true ->
  Forall (recoverable data strategy) ts ->
  df_index fr = idx -> idx <> [] ->
  exists fr' log,
    calculate_returns_loop data strategy ts fr = (Ok fr', log)
    /\ df_index fr' = idx
    /\ (forall t s, In t ts -> cumulative_returns data strategy t = Ok s ->
          get_column t (df_columns fr') = Some (reindex s idx))
    /\ (forall t, ~ In t ts ->
          get_column t (df_columns fr') = get_column t (df_columns fr)).
Proof.
  induction ts as [|t0 ts IH]; intros fr W Hrec Hi Hne.
  - exists fr, []. repeat split; auto. intros t s [].
  - pose proof (Forall_inv Hrec) as H0.
    pose proof (Forall_inv_tail Hrec) as Hr.
    cbn [calculate_returns_loop]. unfold recoverable in H0.
    destruct (cumulative_returns data strategy t0) as [s0|[k|m| |m]] eqn:E0;
      try contradiction.
    + pose proof (cumulative_returns_nodup data strategy t0 s0 W E0) as Hnd.
      destruct (setitem_aligned idx fr t0 s0 Hi Hne Hnd) as (Hi2 & Hc2 & Ho2).
      destruct (IH (setitem fr t0 s0) W Hr Hi2 Hne)
        as (fr' & log & E & Hi' & Hin & Hout).
      exists fr', log. repeat split; try assumption.
      * intros t s [->|Ht] Hs.
        -- destruct (in_dec string_dec t ts) as [Hts|Hts];
             [now apply Hin|].
           rewrite (Hout t Hts). congruence.
        -- now apply Hin.
      * intros t Hnin. rewrite Hout by (intros H; apply Hnin; now right).
        apply Ho2. intros ->. apply Hnin. now left.
    + destruct (IH fr W Hr Hi Hne) as (fr' & log & E & Hi' & Hin & Hout).
      exists fr', (st_error (MsgCalcError t0 (KeyError k)) :: log).
      split; [unfold ui_emit; simpl; now rewrite E|].
      repeat split; try assumption.
      * intros t s [->|Ht] Hs; [congruence|now apply Hin].
      * intros t Hnin. apply Hout. intros H. apply Hnin. now right.
Qed.

Lemma NoDup_app_no_common {A} (a b : list A) x :
  NoDup (a ++ b) -> In x a -> In x b -> False.
Proof.
  induction a as [|y a IH]; intros N Ha Hb; [destruct Ha|].
  inversion N as [|? ? Hnin N']; subst.
  destruct Ha as [->|Ha].
  - apply Hnin. apply in_app_iff. now right.
  - now apply IH.
Qed.

(** X16: for one of the three strategies on a well-formed table, let t0 be
    the first ticker whose series is not empty, every ticker before it
    being skipped or without a point.  Then the result carries the dates of
    t0's series, and the column of every ticker that is kept is its own
    series re-indexed on those dates: its value where it has the date, NaN
    where it has not, while dates only it has are dropped. *)
Theorem columns_follow_first_ticker_dates data strategy pre t0 post s0 :
  well_formed data = true ->
  valid_strategy strategy = true ->
  tickers_of data = pre ++ t0 :: post ->
  Forall (skipped_or_empty data strategy) pre ->
  cumulative_returns data strategy t0 = Ok s0 ->
  s0 <> [] ->
  exists fr log,
    calculate_returns data strategy = (Ok fr, log)
    /\ df_index fr = s_index s0
    /\ forall t s,
         In t (tickers_of data) ->
         cumulative_returns data strategy t = Ok s ->
         get_column t (df_columns fr) = Some (reindex s (s_index s0)).
Proof.
  intros W V Et Hpre E0 Hs0.
  pose proof (cumulative_returns_nodup data strategy t0 s0 W E0) as Hnd0.
  pose proof (unique_NoDup (map (fun c => snd (fst c)) (columns data))) as N.
  fold (tickers_of data) in N. rewrite Et in N.
  assert (Hnpre : ~ In t0 pre /\ ~ In t0 post).
  { apply NoDup_remove_2 in N. rewrite in_app_iff in N. tauto. }
  destruct Hnpre as [Hnpre Hnpost].
  destruct (loop_empty_prefix data strategy pre empty_frame Hpre eq_refl)
    as (fr1 & log1 & E1 & Hi1 & Hc1 & Hin1); [constructor|].
  destruct (setitem_first fr1 t0 s0 Hi1 Hs0 Hnd0) as (Hi2 & Hc2 & Ho2).
  assert (Hne : s_index s0 <> []).
  { intros H. apply Hs0. now apply s_index_nil. }
  destruct (loop_aligned data strategy (s_index s0) post (setitem fr1 t0 s0) W)
    as (fr3 & log3 & E3 & Hi3 & Hin3 & Hout3); try assumption.
  { apply Forall_forall. intros x _. now apply valid_strategy_recoverable. }
  exists fr3, (log1 ++ log3). split; [|split; [exact Hi3|]].
  - unfold calculate_returns. rewrite Et, loop_app, E1.
    cbn [ui_bind calculate_returns_loop]. rewrite E0, E3. reflexivity.
  - intros t s Hin Hs. rewrite Et in Hin. apply in_app_iff in Hin.
    destruct Hin as [Hin|[<-|Hin]].
    + assert (Hnp : ~ In t post).
      { intros Hp. apply NoDup_remove_1 in N.
        apply (NoDup_app_no_common _ _ t N Hin Hp). }
      assert (Hne0 : t <> t0) by (intros ->; contradiction).
      rewrite (Hout3 t Hnp).
      assert (Hse : s = []).
      { rewrite Forall_forall in Hpre. specialize (Hpre t Hin).
        unfold skipped_or_empty in Hpre. now rewrite Hs in Hpre. }
      subst s. apply Ho2; [exact Hne0|]. now apply Hin1.
    + rewrite (Hout3 t0 Hnpost). congruence.
    + now apply Hin3.
Qed.

Lemma columns_follow_first_ticker_dates_witness :
  exists fr log,
    calculate_returns late_listing "close_to_open" = (Ok fr, log)
    /\ df_index fr = s_index [(2%Z, of_Z 1)]
    /\ forall t s,
         In t (tickers_of late_listing) ->
         cumulative_returns late_listing "close_to_open" t = Ok s ->
         get_column t (df_columns fr)
         = Some (reindex s (s_index [(2%Z, of_Z 1)])).
Proof.
  apply (columns_follow_first_ticker_dates late_listing "close_to_open"
           [] "A" ["B"] [(2%Z, of_Z 1)]).
  - reflexivity.
  - reflexivity.
  - reflexivity.
  - constructor.
  - fl_eq.
  - discriminate.
Defined.

(** ** The values behind the log range *)

Lemma plot_loop_values o c b k ts : forall trs av trs' av',
  av = List.concat (map tr_y trs) ->
  plot_loop o c b k ts trs av = Ok (trs', av') ->
  av' = List.concat (map tr_y trs').
Proof.
  induction ts as [|t ts IH]; intros trs av trs' av' Hav E.
  - simpl in E. injection E as <- <-. exact Hav.
  - cbn [plot_loop] in E.
    destruct (frame_getitem o t) as [so|e]; [|discriminate E].
    destruct (frame_getitem c t) as [sc|e]; [|discriminate E].
    destruct (frame_getitem b t) as [sb|e]; [|discriminate E].
    cbn [rbind] in E. eapply IH; [|exact E].
    rewrite map_app, concat_app, Hav. f_equal.
    unfold ticker_traces. cbn [map tr_y List.concat].
    now rewrite app_nil_r.
Qed.

(** X17: when the renderer builds a figure with the log scale on, the range
    it sets is the one [log_range] computes from exactly the y-values of
    the lines drawn for the tickers (every trace but the reference line)
    and the investment; with the log scale off it sets neither an axis type
    nor a range. *)
Theorem log_range_is_taken_from_the_drawn_lines o c b start_date end_date
  initial_investment log_scale fig :
  build_figure o c b start_date end_date initial_investment log_scale
  = Ok fig ->
  if log_scale
  then yaxis_type fig = Some "log"
       /\ exists r,
            yaxis_range fig = Some r
            /\ log_range (List.concat (map tr_y (removelast (traces fig))))
                         initial_investment = Ok r
  else yaxis_type fig = None /\ yaxis_range fig = None.
Proof.
  unfold build_figure. intros E.
  destruct (plot_loop o c b initial_investment (frame_tickers o) [] [])
    as [[trs av]|e] eqn:Ep; [|discriminate E].
  pose proof (plot_loop_values _ _ _ _ _ _ _ _ _ eq_refl Ep) as Hav.
  cbn [rbind fst snd] in E.
  destruct (index_first (df_index o)) as [x0|e]; [|discriminate E].
  destruct (index_last (df_index o)) as [x1|e]; [|discriminate E].
  cbn [rbind] in E. destruct log_scale.
  - cbn [traces title_dates yaxis_type] in E.
    destruct (log_range av initial_investment) as [r|e] eqn:Er;
      [|discriminate E].
    cbn [rbind] in E. injection E as <-. cbn [yaxis_type yaxis_range traces].
    split; [reflexivity|]. exists r. split; [reflexivity|].
    rewrite removelast_last. now rewrite <- Hav.
  - injection E as <-. split; reflexivity.
Qed.

Lemma log_range_is_taken_from_the_drawn_lines_witness :
  exists fig,
    build_figure returns_X returns_X returns_X 1%Z 3%Z (of_Z 100) true
    = Ok fig
    /\ yaxis_type fig = Some "log"
    /\ exists r,
         yaxis_range fig = Some r
         /\ log_range (List.concat (map tr_y (removelast (traces fig))))
                      (of_Z 100) = Ok r.
Proof.
  destruct (build_figure returns_X returns_X returns_X 1%Z 3%Z (of_Z 100)
              true) as [fig|e] eqn:E; [|discriminate E].
  exists fig. split; [reflexivity|].
  exact (log_range_is_taken_from_the_drawn_lines returns_X returns_X
           returns_X 1%Z 3%Z (of_Z 100) true fig E).
Defined.

(** ** Open to close with missing prices *)

Lemma open_to_close_cumulative data t (vc vo : list fl) :
  List.length vc = List.length (index data) ->
  List.length vo = List.length (index data) ->
  column_of data "Close" t = Some vc ->
  column_of data "Open" t = Some vo ->
  cumulative_returns data "open_to_close" t
  = Ok (cumprod (combine (index data)
                   (growth_factors (daily_changes vc vo)))).
Proof.
  intros Lc Lo Ec Eo. unfold cumulative_returns.
  rewrite (open_to_close_daily data t vc vo Lc Lo Ec Eo).
  cbn [rbind]. now rewrite smap_combine.
Qed.

(** [cumprod], position by position: NaN where the factor is NaN, and
    elsewhere the product of the factors met so far that are not NaN. *)
Lemma cumprod_from_nth idx : forall gs acc i g,
  List.length gs = List.length idx ->
  nth_error gs i = Some g ->
  nth_error (s_values (cumprod_from acc (combine idx gs))) i
  = Some (if isnan g then NaN
          else fold_left mul (filter not_nan (firstn (S i) gs)) acc).
Proof.
  induction idx as [|d r IH]; intros [|x gs] acc i g L Hg;
    try discriminate L; [destruct i; discriminate Hg|].
  cbn [List.length] in L. cbn [combine cumprod_from].
  destruct i as [|i].
  - injection Hg as ->. cbn [firstn filter]. unfold not_nan.
    destruct (isnan g); reflexivity.
  - cbn [nth_error] in Hg.
    change (firstn (S (S i)) (x :: gs)) with (x :: firstn (S i) gs).
    cbn [filter]. unfold not_nan at 1.
    destruct (isnan x); cbn [negb fold_left];
      unfold s_values; cbn [map snd nth_error];
      apply (IH gs _ i g); solve [lia | exact Hg].
Qed.

Lemma daily_changes_nth : forall nums dens i n d,
  nth_error nums i = Some n -> nth_error dens i = Some d ->
  nth_error (daily_changes nums dens) i = Some (n / d - of_Z 1)%fl.
Proof.
  induction nums as [|x nums IH]; intros [|y dens] [|i] n d Hn Hd;
    try discriminate.
  - injection Hn as ->. injection Hd as ->. reflexivity.
  - cbn [daily_changes nth_error] in *. now apply IH.
Qed.

(** A factor is NaN exactly where a price is missing. *)
Lemma factor_isnan (c o : option Qc) :
  o <> Some zero ->
  isnan (of_Z 1 + (of_opt c / of_opt o - of_Z 1))%fl
  = match c, o with
    | Some _, Some _ => false
    | _, _ => true
    end.
Proof.
  intros H. destruct c as [c|], o as [o|]; cbn [of_opt]; try reflexivity.
  rewrite div_num by congruence. reflexivity.
Qed.


